(** * api.goodchat: the abilities facade and the conversation reconciler

    A shallow embedding of
      - [lib/services/abilities/abilities.ts]  (the per-staff facade),
      - the conversation reconciler [upsertConversation],
    over an explicit model of the relational store and of the messaging
    provider, followed by the properties of the specification. *)

From stdpp Require Import base list strings sorting.
From Stdlib Require Import ZArith Lia.

Local Open Scope string_scope.
Local Open Scope list_scope.
Local Open Scope Z_scope.

#[local] Set Warnings "-register-all".

(** ** JavaScript values and plain objects *)

(** The values that flow through filters, contents and metadata.  Numbers
    are the integers of the store's columns. *)
Inductive value : Type :=
| VUndefined
| VNull
| VBool (b : bool)
| VNum (n : Z)
| VStr (s : string)
| VObj (o : list (string * value)).

(** A plain object: its own enumerable keys in insertion order. *)
Definition JsObject : Type := list (string * value).

(** JavaScript truthiness; this is what [_.identity] amounts to when it is
    used as a predicate. *)
Definition truthy (v : value) : bool :=
  match v with
  | VUndefined | VNull => false
  | VBool b => b
  | VNum n => negb (n =? 0)
  | VStr s => negb (String.eqb s "")
  | VObj _ => true
  end.

Module Js.

(** [k in o] *)
Fixpoint has (o : JsObject) (k : string) : bool :=
  match o with
  | [] => false
  | (k', _) :: o' => if String.eqb k' k then true else has o' k
  end.

(** [o[k]] *)
Fixpoint get (o : JsObject) (k : string) : value :=
  match o with
  | [] => VUndefined
  | (k', v) :: o' => if String.eqb k' k then v else get o' k
  end.

(** [o[k] = v]: an existing key keeps its position. *)
Fixpoint set (o : JsObject) (k : string) (v : value) : JsObject :=
  match o with
  | [] => [(k, v)]
  | (k', v') :: o' =>
      if String.eqb k' k then (k', v) :: o' else (k', v') :: set o' k v
  end.

(** [{ ...a, ...b }] *)
Definition spread (a b : JsObject) : JsObject :=
  fold_left (fun acc kv => set acc (fst kv) (snd kv)) b a.

(** [_.pick(o, ks)]: the listed keys that [o] has. *)
Definition pick (o : JsObject) (ks : list string) : JsObject :=
  flat_map (fun k => if has o k then [(k, get o k)] else []) ks.

(** [_.pickBy(o, p)] *)
Definition pickBy (o : JsObject) (p : value -> bool) : JsObject :=
  List.filter (fun kv => p (snd kv)) o.

(** [_.keys(o)] *)
Definition keys (o : JsObject) : list string := map fst o.

End Js.

(** ** Pagination *)

Record Pagination := { pg_limit : Z; pg_offset : Z }.

(** [CollectionArgs = Partial<Pagination>]: [None] is a property that
    reads as [undefined]. *)
Record CollectionArgs := { a_limit : option Z; a_offset : option Z }.

(** [_.clamp(number, lower, upper)] *)
Definition clamp (number lower upper : Z) : Z :=
  let number := if number <=? upper then number else upper in
  if number >=? lower then number else lower.

(** [x || d] for an optional number. *)
Definition or_default (x : option Z) (d : Z) : Z :=
  match x with
  | Some n => if n =? 0 then d else n
  | None => d
  end.

Definition normalizePages (args : CollectionArgs) : Pagination :=
  {| pg_limit := clamp (or_default (a_limit args) 25) 0 100;
     pg_offset := clamp (or_default (a_offset args) 0) 0 100 |}.

(** ** Rows of the store *)

(** Prisma enums are strings at run time. *)
Definition ConversationType : Type := string.
Definition CUSTOMER : ConversationType := "CUSTOMER".

Definition AuthorType : Type := string.
Definition STAFF : AuthorType := "STAFF".

(** A staff principal: opaque to this layer but for its id; the role is
    what the rule engine reads. *)
Record Staff := { staff_id : Z; staff_role : string }.

Record Conversation := {
  c_id : Z;
  c_sunshineConversationId : option string;
  c_customerId : option Z;
  c_source : option string;
  c_type : ConversationType;
  c_metadata : value;
  c_createdAt : Z;
  c_updatedAt : Z }.

(** [Unsaved<Conversation>]: every column but [id], [createdAt] and
    [updatedAt]. *)
Record UnsavedConversation := {
  uc_sunshineConversationId : option string;
  uc_customerId : option Z;
  uc_source : option string;
  uc_type : ConversationType;
  uc_metadata : value }.

(** [Partial<Conversation>] as update data: [None] is a key that is not
    there. *)
Record ConversationPatch := {
  cp_sunshineConversationId : option (option string);
  cp_customerId : option (option Z);
  cp_source : option (option string);
  cp_type : option ConversationType;
  cp_metadata : option value }.

Record Message := {
  m_id : Z;
  m_conversationId : Z;
  m_content : value;
  m_sunshineMessageId : option string;
  m_authorType : AuthorType;
  m_authorId : Z;
  m_metadata : value;
  m_createdAt : Z }.

Record UnsavedMessage := {
  um_conversationId : Z;
  um_content : value;
  um_sunshineMessageId : option string;
  um_authorType : AuthorType;
  um_authorId : Z;
  um_metadata : value }.

Record MessagePatch := {
  mp_conversationId : option Z;
  mp_content : option value;
  mp_sunshineMessageId : option (option string);
  mp_authorType : option AuthorType;
  mp_authorId : option Z;
  mp_metadata : option value }.

Record StaffConversation := { sc_staffId : Z; sc_conversationId : Z }.

Record StaffConversationPatch := {
  sp_staffId : option Z;
  sp_conversationId : option Z }.

(** ** The messaging provider *)

Record GoodChatConfig := { appName : string; smoochAppId : string }.

Record ProviderRequest := {
  rq_appId : string;
  rq_conversationId : string;
  rq_body : value }.

Record ProviderMessage := { pm_id : string }.

(** ** The world: the tables, the store's sequences and clock, and the
    requests that went out to the provider *)

Record World := {
  conversations : list Conversation;
  messages : list Message;
  staffConversations : list StaffConversation;
  conversationSeq : Z;
  messageSeq : Z;
  now : Z;
  outbox : list ProviderRequest }.

Definition with_conversations (w : World) (cs : list Conversation) (seq : Z) : World :=
  {| conversations := cs; messages := messages w;
     staffConversations := staffConversations w;
     conversationSeq := seq; messageSeq := messageSeq w;
     now := now w + 1; outbox := outbox w |}.

Definition with_messages (w : World) (ms : list Message) (seq : Z) : World :=
  {| conversations := conversations w; messages := ms;
     staffConversations := staffConversations w;
     conversationSeq := conversationSeq w; messageSeq := seq;
     now := now w + 1; outbox := outbox w |}.

Definition with_staffConversations (w : World) (scs : list StaffConversation) : World :=
  {| conversations := conversations w; messages := messages w;
     staffConversations := scs;
     conversationSeq := conversationSeq w; messageSeq := messageSeq w;
     now := now w + 1; outbox := outbox w |}.

Definition with_outbox (w : World) (rqs : list ProviderRequest) : World :=
  {| conversations := conversations w; messages := messages w;
     staffConversations := staffConversations w;
     conversationSeq := conversationSeq w; messageSeq := messageSeq w;
     now := now w; outbox := rqs |}.

(** ** Failures and the monad of an asynchronous call *)

Inductive Error : Type :=
| Forbidden                      (* throwForbidden() *)
| ProviderFailure (e : string)   (* whatever the provider's client throws *)
| TypeError                      (* reading a property of undefined *)
| UniqueConstraintViolation      (* the store refuses a duplicate key *)
| RecordNotFound                 (* update of a row that is not there *)
| ValidationError.               (* the store refuses the query itself *)

Inductive Result (A : Type) : Type :=
| Ok (a : A)
| Thrown (e : Error).
Arguments Ok {A} a.
Arguments Thrown {A} e.

(** A call runs on a world and leaves one, also when it throws: writes
    made before the throw stay. *)
Definition M (A : Type) : Type := World -> Result A * World.

Definition ret {A} (a : A) : M A := fun w => (Ok a, w).
Definition throw {A} (e : Error) : M A := fun w => (Thrown e, w).
Definition bind {A B} (c : M A) (k : A -> M B) : M B :=
  fun w => match c w with
           | (Ok a, w') => k a w'
           | (Thrown e, w') => (Thrown e, w')
           end.
(** A read of the store inside a call. *)
Definition read {A} (f : World -> A) : M A := fun w => (Ok (f w), w).

Declare Scope async_scope.
Delimit Scope async_scope with async.
Notation "'await' x <- c ; k" := (bind c (fun x => k))
  (at level 10, x name, c at level 100, k at level 200,
   format "'[v' 'await'  x  <-  c ; '/' k ']'") : async_scope.

(** ** What this layer is given

    The rule engine ([./rules]), the store's reading of the constraints
    only the rule engine emits, the provider's client and the loaded
    configuration are collaborators of this layer: the facade is
    parameterised by them. *)
Class Collaborators := {
  (** [getConversationRules(staff)]: the where-clause scoping a principal. *)
  getConversationRules : Staff -> JsObject;
  (** [allowedConversationTypes(staff)] *)
  allowedConversationTypes : Staff -> list ConversationType;
  (** How the store decides a constraint on a Conversation that is not one
      of the scalar equalities below (relation filters, [OR], [in], ...). *)
  ruleFilter : World -> string -> value -> Conversation -> bool;
  (** The provider: its answer to a request, given the requests so far. *)
  postMessage : list ProviderRequest -> ProviderRequest -> Result (list ProviderMessage);
  (** The module-level [config]; [None] is a falsy binding. *)
  config : option GoodChatConfig }.

(** ** The store's primitives *)

Inductive SortOrder : Type := asc | desc.

Module Store.

(** *** where *)

(** One constraint [{ k: v }] on a Conversation row.  A key whose value
    is [undefined] constrains nothing; a scalar on [id], [customerId] or
    [type] is an equality. *)
Definition conversation_constraint `{Collaborators}
    (w : World) (k : string) (v : value) (c : Conversation) : bool :=
  match v with
  | VUndefined => true
  | VNum n =>
      if String.eqb k "id" then c_id c =? n
      else if String.eqb k "customerId" then bool_decide (c_customerId c = Some n)
      else ruleFilter w k v c
  | VStr s =>
      if String.eqb k "type" then String.eqb (c_type c) s
      else ruleFilter w k v c
  | _ => ruleFilter w k v c
  end.

(** The constraints of a where-clause are ANDed. *)
Definition conversation_where `{Collaborators}
    (w : World) (o : JsObject) (c : Conversation) : bool :=
  forallb (fun kv => conversation_constraint w (fst kv) (snd kv) c) o.

(** One constraint on a Message row; [conversation] is the relation
    filter through the owning conversation. *)
Definition message_constraint `{Collaborators}
    (w : World) (k : string) (v : value) (m : Message) : bool :=
  match v with
  | VUndefined => true
  | VNum n =>
      if String.eqb k "id" then m_id m =? n
      else if String.eqb k "conversationId" then m_conversationId m =? n
      else false
  | VObj rules =>
      if String.eqb k "conversation"
      then existsb (fun c => (c_id c =? m_conversationId m)
                             && conversation_where w rules c) (conversations w)
      else false
  | _ => false
  end.

Definition message_where `{Collaborators}
    (w : World) (o : JsObject) (m : Message) : bool :=
  forallb (fun kv => message_constraint w (fst kv) (snd kv) m) o.

(** *** orderBy *)

(** [x] may come before [y] under the ordering keys, all compared in
    turn. *)
Fixpoint lex_leb {A} (orderBy : list ((A -> Z) * SortOrder)) (x y : A) : bool :=
  match orderBy with
  | [] => true
  | (col, o) :: rest =>
      let a := match o with asc => col x | desc => col y end in
      let b := match o with asc => col y | desc => col x end in
      if a <? b then true
      else if b <? a then false
      else lex_leb rest x y
  end.

Definition ordered {A} (orderBy : list ((A -> Z) * SortOrder)) : relation A :=
  fun x y => lex_leb orderBy x y = true.

#[global] Instance ordered_dec {A} (orderBy : list ((A -> Z) * SortOrder)) :
  RelDecision (ordered orderBy) :=
  fun x y => decide (lex_leb orderBy x y = true).

(** *** findMany *)

Definition findMany {A} (rows : list A) (skip limit : Z)
    (where_ : A -> bool) (orderBy : list ((A -> Z) * SortOrder)) : list A :=
  firstn (Z.to_nat limit)
    (skipn (Z.to_nat skip)
       (merge_sort (ordered orderBy) (List.filter where_ rows))).

(** *** writes *)

Fixpoint replace_first {A} (p : A -> bool) (r' : A) (rows : list A) : list A :=
  match rows with
  | [] => []
  | r :: rows' => if p r then r' :: rows' else r :: replace_first p r' rows'
  end.

(** Conversation *)

Definition conversation_has_key (sid : string) (c : Conversation) : bool :=
  bool_decide (c_sunshineConversationId c = Some sid).

(** Some row other than [self] already carries the external identity. *)
Definition conversation_key_taken (rows : list Conversation)
    (self : option Z) (sid : option string) : bool :=
  match sid with
  | None => false
  | Some s =>
      existsb (fun c => negb (bool_decide (Some (c_id c) = self))
                        && conversation_has_key s c) rows
  end.

Definition patch_conversation (p : ConversationPatch) (t : Z) (c : Conversation)
    : Conversation :=
  {| c_id := c_id c;
     c_sunshineConversationId :=
       default (c_sunshineConversationId c) (cp_sunshineConversationId p);
     c_customerId := default (c_customerId c) (cp_customerId p);
     c_source := default (c_source c) (cp_source p);
     c_type := default (c_type c) (cp_type p);
     c_metadata := default (c_metadata c) (cp_metadata p);
     c_createdAt := c_createdAt c;
     c_updatedAt := t |}.

Definition conversation_insert (data : UnsavedConversation) : M Conversation :=
  fun w =>
    if conversation_key_taken (conversations w) None (uc_sunshineConversationId data)
    then (Thrown UniqueConstraintViolation, w)
    else
      let row := {| c_id := conversationSeq w;
                    c_sunshineConversationId := uc_sunshineConversationId data;
                    c_customerId := uc_customerId data;
                    c_source := uc_source data;
                    c_type := uc_type data;
                    c_metadata := uc_metadata data;
                    c_createdAt := now w;
                    c_updatedAt := now w |} in
      (Ok row, with_conversations w (conversations w ++ [row]) (conversationSeq w + 1)).

(** Rewrite the row selected by [sel], which is [old].  The unique key
    is checked when the data writes it. *)
Definition conversation_write (sel : Conversation -> bool) (old : Conversation)
    (data : ConversationPatch) : M Conversation :=
  fun w =>
    let row := patch_conversation data (now w) old in
    if match cp_sunshineConversationId data with
       | Some sid => conversation_key_taken (conversations w) (Some (c_id old)) sid
       | None => false
       end
    then (Thrown UniqueConstraintViolation, w)
    else (Ok row,
          with_conversations w (replace_first sel row (conversations w))
            (conversationSeq w)).

(** [db.conversation.upsert({ where: { sunshineConversationId }, create, update })] *)
Definition conversation_upsert (sunshineConversationId : string)
    (create : UnsavedConversation) (update : ConversationPatch) : M Conversation :=
  fun w =>
    let sel := conversation_has_key sunshineConversationId in
    match List.find sel (conversations w) with
    | Some old => conversation_write sel old update w
    | None => conversation_insert create w
    end.

(** [db.conversation.update({ where: { id }, data })] *)
Definition conversation_update (id : Z) (data : ConversationPatch) : M Conversation :=
  fun w =>
    let sel := fun c => c_id c =? id in
    match List.find sel (conversations w) with
    | Some old => conversation_write sel old data w
    | None => (Thrown RecordNotFound, w)
    end.

(** Message *)

Definition message_has_key (mid : string) (m : Message) : bool :=
  bool_decide (m_sunshineMessageId m = Some mid).

Definition message_key_taken (rows : list Message)
    (self : option Z) (mid : option string) : bool :=
  match mid with
  | None => false
  | Some s =>
      existsb (fun m => negb (bool_decide (Some (m_id m) = self))
                        && message_has_key s m) rows
  end.

Definition patch_message (p : MessagePatch) (m : Message) : Message :=
  {| m_id := m_id m;
     m_conversationId := default (m_conversationId m) (mp_conversationId p);
     m_content := default (m_content m) (mp_content p);
     m_sunshineMessageId := default (m_sunshineMessageId m) (mp_sunshineMessageId p);
     m_authorType := default (m_authorType m) (mp_authorType p);
     m_authorId := default (m_authorId m) (mp_authorId p);
     m_metadata := default (m_metadata m) (mp_metadata p);
     m_createdAt := m_createdAt m |}.

(** The row a create makes of its data in a given world. *)
Definition new_message (w : World) (data : UnsavedMessage) : Message :=
  {| m_id := messageSeq w;
     m_conversationId := um_conversationId data;
     m_content := um_content data;
     m_sunshineMessageId := um_sunshineMessageId data;
     m_authorType := um_authorType data;
     m_authorId := um_authorId data;
     m_metadata := um_metadata data;
     m_createdAt := now w |}.

(** [db.message.create({ data })] *)
Definition message_create (data : UnsavedMessage) : M Message :=
  fun w =>
    if message_key_taken (messages w) None (um_sunshineMessageId data)
    then (Thrown UniqueConstraintViolation, w)
    else (Ok (new_message w data),
          with_messages w (messages w ++ [new_message w data]) (messageSeq w + 1)).

Definition message_write (sel : Message -> bool) (old : Message)
    (data : MessagePatch) : M Message :=
  fun w =>
    let row := patch_message data old in
    if match mp_sunshineMessageId data with
       | Some mid => message_key_taken (messages w) (Some (m_id old)) mid
       | None => false
       end
    then (Thrown UniqueConstraintViolation, w)
    else (Ok row,
          with_messages w (replace_first sel row (messages w)) (messageSeq w)).

(** [db.message.upsert({ where: { sunshineMessageId }, update, create })].
    A unique where needs a value: the store refuses [null]. *)
Definition message_upsert (sunshineMessageId : option string)
    (update : MessagePatch) (create : UnsavedMessage) : M Message :=
  fun w =>
    match sunshineMessageId with
    | None => (Thrown ValidationError, w)
    | Some mid =>
        let sel := message_has_key mid in
        match List.find sel (messages w) with
        | Some old => message_write sel old update w
        | None => message_create create w
        end
    end.

(** StaffConversations *)

Definition staffConversation_has_key (k r : StaffConversation) : bool :=
  (sc_staffId r =? sc_staffId k) && (sc_conversationId r =? sc_conversationId k).

Definition patch_staffConversation (p : StaffConversationPatch)
    (r : StaffConversation) : StaffConversation :=
  {| sc_staffId := default (sc_staffId r) (sp_staffId p);
     sc_conversationId := default (sc_conversationId r) (sp_conversationId p) |}.

(** [db.staffConversations.upsert({ where: { staffId_conversationId }, update, create })] *)
Definition staffConversations_upsert (staffId_conversationId : StaffConversation)
    (update : StaffConversationPatch) (create : StaffConversation)
    : M StaffConversation :=
  fun w =>
    let sel := staffConversation_has_key staffId_conversationId in
    match List.find sel (staffConversations w) with
    | Some old =>
        let row := patch_staffConversation update old in
        if negb (staffConversation_has_key old row)
           && existsb (staffConversation_has_key row) (staffConversations w)
        then (Thrown UniqueConstraintViolation, w)
        else (Ok row,
              with_staffConversations w (replace_first sel row (staffConversations w)))
    | None =>
        if existsb (staffConversation_has_key create) (staffConversations w)
        then (Thrown UniqueConstraintViolation, w)
        else (Ok create,
              with_staffConversations w (staffConversations w ++ [create]))
    end.

End Store.

(** ** The abilities facade ([abilities.ts]) *)

(** An optional property of an argument object: not there, there with the
    value [undefined], or given. *)
Inductive Arg (A : Type) : Type :=
| Absent
| Undefined
| Given (a : A).
Arguments Absent {A}.
Arguments Undefined {A}.
Arguments Given {A} a.

Record ConversationsArgs := {
  ca_limit : option Z;
  ca_offset : option Z;
  ca_type : Arg ConversationType;
  ca_customerId : Arg Z;
  ca_id : Arg Z }.

(** [MessageArgs]: its properties are only ever read ([args.id]), so
    [None] stands for both a missing and an [undefined] one. *)
Record MessageArgs := {
  ma_limit : option Z;
  ma_offset : option Z;
  ma_conversationId : option Z;
  ma_id : option Z;
  ma_order : option SortOrder }.

(** The own key [k] of an argument object, if it has it. *)
Definition own {A} (k : string) (inj : A -> value) (a : Arg A) : JsObject :=
  match a with
  | Absent => []
  | Undefined => [(k, VUndefined)]
  | Given x => [(k, inj x)]
  end.

(** The filter keys of a [ConversationsArgs] object. *)
Definition filters_object (args : ConversationsArgs) : JsObject :=
  (own "type" VStr (ca_type args)
   ++ own "customerId" VNum (ca_customerId args)
   ++ own "id" VNum (ca_id args))%list.

(** [args.k] for an optional number. *)
Definition prop (x : option Z) : value :=
  match x with
  | Some n => VNum n
  | None => VUndefined
  end.

(** [_.includes(xs, x)] *)
Definition includes (xs : list string) (x : string) : bool :=
  existsb (String.eqb x) xs.

(** [update: {}] *)
Definition no_message_update : MessagePatch :=
  {| mp_conversationId := None; mp_content := None; mp_sunshineMessageId := None;
     mp_authorType := None; mp_authorId := None; mp_metadata := None |}.

Definition no_staffConversation_update : StaffConversationPatch :=
  {| sp_staffId := None; sp_conversationId := None |}.

Section Abilities.

Context `{Collaborators}.

(** [abilities(staff)] *)
Variable staff : Staff.

Definition clean (obj : JsObject) : JsObject := Js.pickBy obj truthy.

(** [sunshineMessages.postMessage(appId, conversationId, body)] *)
Definition sunshine_postMessage (appId conversationId : string) (body : value)
    : M (list ProviderMessage) :=
  fun w =>
    let rq := {| rq_appId := appId; rq_conversationId := conversationId;
                 rq_body := body |} in
    (postMessage (outbox w) rq, with_outbox w (outbox w ++ [rq])).

(** The where-clause [getConversations] compiles. *)
Definition conversations_where (args : ConversationsArgs) : JsObject :=
  clean (Js.spread (getConversationRules staff)
                   (Js.pick (filters_object args) ["type"; "id"; "customerId"])).

Definition getConversations (args : ConversationsArgs) (w : World)
    : list Conversation :=
  let p := normalizePages {| a_limit := ca_limit args; a_offset := ca_offset args |} in
  Store.findMany (conversations w) (pg_offset p) (pg_limit p)
    (Store.conversation_where w (conversations_where args))
    [(c_updatedAt, desc); (c_id, desc)].

(** [(await getConversations({ id, offset: 0, limit: 1 }))[0] || null] *)
Definition getConversationById (id : Z) (w : World) : option Conversation :=
  head (getConversations
          {| ca_limit := Some 1; ca_offset := Some 0; ca_type := Absent;
             ca_customerId := Absent; ca_id := Given id |} w).

Definition addToConversation (id : Z) (user : Staff) : M StaffConversation :=
  (let allowedTypes := allowedConversationTypes user in
   await conversation <- read (getConversationById id);
   match conversation with
   | None => throw Forbidden
   | Some conversation =>
       if negb (includes allowedTypes (c_type conversation))
       then throw Forbidden
       else
         let compoundId := {| sc_staffId := staff_id user;
                              sc_conversationId := id |} in
         Store.staffConversations_upsert compoundId
           no_staffConversation_update compoundId
   end)%async.

Definition joinConversation (id : Z) : M StaffConversation :=
  addToConversation id staff.

(** The where-clause [getMessages] compiles. *)
Definition messages_where (args : MessageArgs) : JsObject :=
  clean [("conversation", VObj (getConversationRules staff));
         ("id", prop (ma_id args));
         ("conversationId", prop (ma_conversationId args))].

Definition getMessages (args : MessageArgs) (w : World) : list Message :=
  let p := normalizePages {| a_limit := ma_limit args; a_offset := ma_offset args |} in
  Store.findMany (messages w) (pg_offset p) (pg_limit p)
    (Store.message_where w (messages_where args))
    [(m_createdAt, default desc (ma_order args))].

Definition getMessageById (id : Z) (w : World) : option Message :=
  head (getMessages
          {| ma_limit := Some 1; ma_offset := Some 0; ma_conversationId := None;
             ma_id := Some id; ma_order := None |} w).

(** The body posted to the provider. *)
Definition provider_body (cfg : GoodChatConfig) (content : value) : value :=
  VObj [("author", VObj [("type", VStr "business");
                         ("displayName", VStr (appName cfg))]);
        ("content", content)].

Definition sendMessage (conversationId : Z) (content : value) : M Message :=
  (await conversation <- read (getConversationById conversationId);
   match conversation with
   | None => throw Forbidden
   | Some conversation =>
       let unsaveMessage :=
         {| um_conversationId := conversationId;
            um_content := content;
            um_sunshineMessageId := None;
            um_authorType := STAFF;
            um_authorId := staff_id staff;
            um_metadata := VObj [] |} in
       await _ <- joinConversation conversationId;
       match String.eqb (c_type conversation) CUSTOMER, config with
       | true, Some config =>
           await sunshineMessageId <-
             match c_sunshineConversationId conversation with
             | Some sunshineConversationId =>
                 if truthy (VStr sunshineConversationId)
                 then
                   await response <-
                     sunshine_postMessage (smoochAppId config)
                       sunshineConversationId (provider_body config content);
                   match response with
                   | message :: _ => ret (Some (pm_id message))
                   | [] => throw TypeError
                   end
                 else ret None
             | None => ret None
             end;
           Store.message_upsert sunshineMessageId no_message_update
             {| um_conversationId := um_conversationId unsaveMessage;
                um_content := um_content unsaveMessage;
                um_sunshineMessageId := sunshineMessageId;
                um_authorType := um_authorType unsaveMessage;
                um_authorId := um_authorId unsaveMessage;
                um_metadata := um_metadata unsaveMessage |}
       | _, _ => Store.message_create unsaveMessage   (* No Sunshine *)
       end
   end)%async.

Definition sendTextMessage (conversationId : Z) (text : string) : M Message :=
  sendMessage conversationId (VObj [("type", VStr "text"); ("text", VStr text)]).

End Abilities.

(** ** The conversation reconciler ([upsertConversation]) *)

Module Reconciler.

(** The candidate as update data: every key of [data]. *)
Definition all_of (data : UnsavedConversation) : ConversationPatch :=
  {| cp_sunshineConversationId := Some (uc_sunshineConversationId data);
     cp_customerId := Some (uc_customerId data);
     cp_source := Some (uc_source data);
     cp_type := Some (uc_type data);
     cp_metadata := Some (uc_metadata data) |}.

(** [_.omit(patch, keys)]; a name that is no key is of no effect. *)
Definition omit (p : ConversationPatch) (ks : list string) : ConversationPatch :=
  {| cp_sunshineConversationId :=
       if includes ks "sunshineConversationId" then None
       else cp_sunshineConversationId p;
     cp_customerId := if includes ks "customerId" then None else cp_customerId p;
     cp_source := if includes ks "source" then None else cp_source p;
     cp_type := if includes ks "type" then None else cp_type p;
     cp_metadata := if includes ks "metadata" then None else cp_metadata p |}.

(** [{}] *)
Definition empty : ConversationPatch :=
  {| cp_sunshineConversationId := None; cp_customerId := None;
     cp_source := None; cp_type := None; cp_metadata := None |}.

Definition set_customerId (p : ConversationPatch) (v : option Z) : ConversationPatch :=
  {| cp_sunshineConversationId := cp_sunshineConversationId p;
     cp_customerId := Some v; cp_source := cp_source p;
     cp_type := cp_type p; cp_metadata := cp_metadata p |}.

Definition set_source (p : ConversationPatch) (v : option string) : ConversationPatch :=
  {| cp_sunshineConversationId := cp_sunshineConversationId p;
     cp_customerId := cp_customerId p; cp_source := Some v;
     cp_type := cp_type p; cp_metadata := cp_metadata p |}.

Definition key_if {A} (o : option A) (k : string) : list string :=
  match o with
  | Some _ => [k]
  | None => []
  end.

(** [_.keys(patch)] *)
Definition keys (p : ConversationPatch) : list string :=
  (key_if (cp_sunshineConversationId p) "sunshineConversationId"
   ++ key_if (cp_customerId p) "customerId"
   ++ key_if (cp_source p) "source"
   ++ key_if (cp_type p) "type"
   ++ key_if (cp_metadata p) "metadata")%list.

(** Truthiness of a nullable string column. *)
Definition truthy_string (s : option string) : bool :=
  match s with
  | Some s => truthy (VStr s)
  | None => false
  end.

(** [_.isString] on a nullable string. *)
Definition isString (s : option string) : bool :=
  match s with
  | Some _ => true
  | None => false
  end.

Definition upsertConversation (sunshineConversationId : string)
    (data : UnsavedConversation) : M Conversation :=
  (await conversation <-
     Store.conversation_upsert sunshineConversationId
       {| uc_sunshineConversationId := Some sunshineConversationId;
          uc_customerId := uc_customerId data;
          uc_source := uc_source data;
          uc_type := uc_type data;
          uc_metadata := uc_metadata data |}
       (omit (all_of data) ["metadata"; "externalId"; "source"; "customerId"]);
   let update := empty in
   let update :=
     if bool_decide (c_customerId conversation = None)
        && negb (bool_decide (uc_customerId data = None))
     then set_customerId update (uc_customerId data) else update in
   let update :=
     if negb (truthy_string (c_source conversation)) && isString (uc_source data)
     then set_source update (uc_source data) else update in
   if (0 <? length (keys update))%nat
   then Store.conversation_update (c_id conversation) update
   else ret conversation)%async.

End Reconciler.

(** ** A concrete setting

    One rule engine, provider and configuration, and a few worlds, on which
    the definitions above are run. *)

Module Demo.

(** Administrators see everything; anyone else sees the conversations
    they have joined. *)
Definition rules (s : Staff) : JsObject :=
  if String.eqb (staff_role s) "admin" then []
  else [("staffConversations",
         VObj [("some", VObj [("staffId", VNum (staff_id s))])])].

Definition allowed (s : Staff) : list ConversationType :=
  if String.eqb (staff_role s) "admin" then ["CUSTOMER"; "PUBLIC"; "PRIVATE"]
  else ["PUBLIC"; "PRIVATE"].

(** [staffConversations: { some: { staffId } }] *)
Definition relationFilter (w : World) (k : string) (v : value) (c : Conversation)
    : bool :=
  if String.eqb k "staffConversations" then
    match v with
    | VObj o =>
        match Js.get o "some" with
        | VObj o' =>
            match Js.get o' "staffId" with
            | VNum n =>
                existsb (fun sc => (sc_staffId sc =? n)
                                   && (sc_conversationId sc =? c_id c))
                  (staffConversations w)
            | _ => false
            end
        | _ => false
        end
    | _ => false
    end
  else false.

(** The provider answers with one message, but is down for the
    conversation ["ext-down"]. *)
Definition provider (sent : list ProviderRequest) (rq : ProviderRequest)
    : Result (list ProviderMessage) :=
  if String.eqb (rq_conversationId rq) "ext-down"
  then Thrown (ProviderFailure "ECONNRESET")
  else Ok [{| pm_id := "prov-1" |}].

#[global] Instance collaborators : Collaborators :=
  {| getConversationRules := rules;
     allowedConversationTypes := allowed;
     ruleFilter := relationFilter;
     postMessage := provider;
     config := Some {| appName := "GoodChat"; smoochAppId := "app-1" |} |}.

Definition admin : Staff := {| staff_id := 1; staff_role := "admin" |}.
Definition agent : Staff := {| staff_id := 2; staff_role := "agent" |}.

Definition conversation (id : Z) (sid : option string) (type : ConversationType)
    (updatedAt : Z) : Conversation :=
  {| c_id := id; c_sunshineConversationId := sid; c_customerId := None;
     c_source := None; c_type := type; c_metadata := VObj [];
     c_createdAt := 0; c_updatedAt := updatedAt |}.

Definition message (id conversationId : Z) (mid : option string) (createdAt : Z)
    : Message :=
  {| m_id := id; m_conversationId := conversationId;
     m_content := VObj [("type", VStr "text"); ("text", VStr "hi")];
     m_sunshineMessageId := mid; m_authorType := "CUSTOMER"; m_authorId := 9;
     m_metadata := VObj []; m_createdAt := createdAt |}.

Definition empty_world : World :=
  {| conversations := []; messages := []; staffConversations := [];
     conversationSeq := 1; messageSeq := 1; now := 100; outbox := [] |}.

(** Conversation 7 is bridged to ["ext-99"], conversation 8 to a provider
    conversation that is down, conversation 5 is internal; the agent has
    joined 5 only. *)
Definition world : World :=
  {| conversations := [conversation 5 None "PRIVATE" 30;
                       conversation 7 (Some "ext-99") "CUSTOMER" 20;
                       conversation 8 (Some "ext-down") "CUSTOMER" 20];
     messages := [message 1 5 None 11; message 2 7 None 12];
     staffConversations := [{| sc_staffId := 2; sc_conversationId := 5 |}];
     conversationSeq := 9; messageSeq := 3; now := 100; outbox := [] |}.

(** The same, after the provider's webhook stored its echo of ["prov-1"]. *)
Definition world_after_webhook : World :=
  {| conversations := conversations world;
     messages := (messages world ++ [message 3 7 (Some "prov-1") 50])%list;
     staffConversations := staffConversations world;
     conversationSeq := 9; messageSeq := 4; now := 100; outbox := [] |}.

(** A store that holds a conversation with id 0, out of the agent's
    scope, next to conversation 5. *)
Definition world_zero : World :=
  {| conversations := [conversation 0 None "PRIVATE" 10;
                       conversation 5 None "PRIVATE" 30];
     messages := [message 1 5 None 11; message 2 0 None 12];
     staffConversations := [{| sc_staffId := 2; sc_conversationId := 5 |}];
     conversationSeq := 6; messageSeq := 3; now := 100; outbox := [] |}.

(** A candidate that carries the identity ["ext-99"] it is keyed on. *)
Definition candidate : UnsavedConversation :=
  {| uc_sunshineConversationId := Some "ext-99"; uc_customerId := Some 3;
     uc_source := Some "whatsapp"; uc_type := "CUSTOMER";
     uc_metadata := VObj [("locale", VStr "en")] |}.

(** The same candidate, of another type. *)
Definition candidate_private : UnsavedConversation :=
  {| uc_sunshineConversationId := Some "ext-99"; uc_customerId := Some 3;
     uc_source := Some "whatsapp"; uc_type := "PRIVATE";
     uc_metadata := VObj [("locale", VStr "en")] |}.

(** A candidate whose own external identity is null. *)
Definition candidate_without_identity : UnsavedConversation :=
  {| uc_sunshineConversationId := None; uc_customerId := Some 3;
     uc_source := Some "whatsapp"; uc_type := "CUSTOMER";
     uc_metadata := VObj [] |}.

End Demo.

(** ** Vocabulary of the properties *)

(** Most recently updated first and, at equal update times, the larger
    identifier first. *)
Definition newest_first (c1 c2 : Conversation) : Prop :=
  c_updatedAt c2 < c_updatedAt c1
  \/ (c_updatedAt c1 = c_updatedAt c2 /\ c_id c2 <= c_id c1).

(** By creation time, in the given direction. *)
Definition by_creation (o : SortOrder) (m1 m2 : Message) : Prop :=
  match o with
  | asc => m_createdAt m1 <= m_createdAt m2
  | desc => m_createdAt m2 <= m_createdAt m1
  end.

(** The window a paginated read takes of the ordered rows. *)
Definition page {A} (p : Pagination) (rows : list A) : list A :=
  firstn (Z.to_nat (pg_limit p)) (skipn (Z.to_nat (pg_offset p)) rows).

(** The same arguments with one filter replaced. *)
Definition with_id (args : ConversationsArgs) (a : Arg Z) : ConversationsArgs :=
  {| ca_limit := ca_limit args; ca_offset := ca_offset args; ca_type := ca_type args;
     ca_customerId := ca_customerId args; ca_id := a |}.

Definition with_type (args : ConversationsArgs) (a : Arg ConversationType)
    : ConversationsArgs :=
  {| ca_limit := ca_limit args; ca_offset := ca_offset args; ca_type := a;
     ca_customerId := ca_customerId args; ca_id := ca_id args |}.

Definition with_customerId (args : ConversationsArgs) (a : Arg Z) : ConversationsArgs :=
  {| ca_limit := ca_limit args; ca_offset := ca_offset args; ca_type := ca_type args;
     ca_customerId := a; ca_id := ca_id args |}.

Definition with_message_id (args : MessageArgs) (a : option Z) : MessageArgs :=
  {| ma_limit := ma_limit args; ma_offset := ma_offset args;
     ma_conversationId := ma_conversationId args; ma_id := a;
     ma_order := ma_order args |}.

Definition with_conversationId (args : MessageArgs) (a : option Z) : MessageArgs :=
  {| ma_limit := ma_limit args; ma_offset := ma_offset args;
     ma_conversationId := a; ma_id := ma_id args;
     ma_order := ma_order args |}.

(** The rule-engine scope of a principal: the conversations its rule
    predicate admits. *)
Definition in_scope `{Collaborators} (P : Staff) (w : World) (c : Conversation)
    : bool :=
  Store.conversation_where w (getConversationRules P) c.

(** Every constraint of the principal's rule predicate has a truthy value,
    so that [clean] keeps it. *)
Definition rules_truthy `{Collaborators} (P : Staff) : Prop :=
  Forall (fun kv => truthy (snd kv) = true) (getConversationRules P).

(** How many StaffConversation rows the store holds for a staff and
    conversation pair. *)
Definition joined_rows (k : StaffConversation) (w : World) : nat :=
  length (List.filter (Store.staffConversation_has_key k) (staffConversations w)).

(** How many Message rows carry a provider message identity. *)
Definition rows_with_message_id (mid : string) (w : World) : nat :=
  length (List.filter (Store.message_has_key mid) (messages w)).

(** How many Conversation rows carry an external identity. *)
Definition rows_with_conversation_key (sid : string) (w : World) : nat :=
  length (List.filter (Store.conversation_has_key sid) (conversations w)).

(** A fill-once column after a reconciliation: an existing non-null
    customer reference stays, otherwise the candidate's is taken; an existing
    non-empty source stays, otherwise the candidate's is taken when it is a
    string. *)
Definition fill_once_customerId (existing candidate : option Z) : option Z :=
  match existing with
  | Some x => Some x
  | None => candidate
  end.

Definition fill_once_source (existing candidate : option string) : option string :=
  if Reconciler.truthy_string existing then existing
  else if Reconciler.isString candidate then candidate
  else existing.

(** The store's constraints on the Conversation table: ids are unique and
    below the sequence, and no external identity is carried twice. *)
Record conversations_wf (w : World) : Prop := {
  wf_ids : NoDup (map c_id (conversations w));
  wf_seq : Forall (fun c => c_id c < conversationSeq w) (conversations w);
  wf_keys : forall sid, (rows_with_conversation_key sid w <= 1)%nat }.

(** Two rows that differ at most in their update time. *)
Definition same_columns (r r' : Conversation) : Prop :=
  c_id r = c_id r'
  /\ c_sunshineConversationId r = c_sunshineConversationId r'
  /\ c_customerId r = c_customerId r'
  /\ c_source r = c_source r'
  /\ c_type r = c_type r'
  /\ c_metadata r = c_metadata r'
  /\ c_createdAt r = c_createdAt r'.

(** The row an update of an existing conversation ends with. *)
Definition reconciled (old : Conversation) (data : UnsavedConversation) (t : Z) : Conversation :=
  {| c_id := c_id old;
     c_sunshineConversationId := uc_sunshineConversationId data;
     c_customerId := fill_once_customerId (c_customerId old) (uc_customerId data);
     c_source := fill_once_source (c_source old) (uc_source data);
     c_type := uc_type data;
     c_metadata := c_metadata old;
     c_createdAt := c_createdAt old;
     c_updatedAt := t |}.

(** The row a creation ends with. *)
Definition created (sid : string) (data : UnsavedConversation) (id t t' : Z) : Conversation :=
  {| c_id := id;
     c_sunshineConversationId := Some sid;
     c_customerId := uc_customerId data;
     c_source := uc_source data;
     c_type := uc_type data;
     c_metadata := uc_metadata data;
     c_createdAt := t;
     c_updatedAt := t' |}.

(** A row on which a further reconciliation with the same candidate
    changes no column. *)
Definition settled (sid : string) (data : UnsavedConversation) (r : Conversation)
    : Prop :=
  c_sunshineConversationId r = Some sid
  /\ c_type r = uc_type data
  /\ (c_customerId r = None -> uc_customerId data = None)
  /\ (Reconciler.truthy_string (c_source r) = false ->
      Reconciler.isString (uc_source data) = true ->
      c_source r = uc_source data).

(** Relations between objects that cleaning cannot tell apart. *)
Module JsRel.

(** Two objects with the same keys in the same order whose values are
    the same or both falsy. *)
Definition agree (o o' : JsObject) : Prop :=
  Forall2 (fun kv kv' =>
             fst kv = fst kv'
             /\ (snd kv = snd kv'
                 \/ (truthy (snd kv) = false /\ truthy (snd kv') = false))) o o'.

(** [o'] is [o] with one falsy entry under the new key [k] put in. *)
Definition extra (k : string) (o o' : JsObject) : Prop :=
  exists l1 l2 v,
    o = l1 ++ l2 /\ o' = l1 ++ (k, v) :: l2
    /\ truthy v = false /\ Js.has (l1 ++ l2) k = false.

End JsRel.

(** ** The customer abilities ([customerAbilities]) *)

Module Customers.

(** The columns of a Customer this layer names. *)
Record Customer := { cu_id : Z; cu_externalId : string }.

(** [T | T[]] *)
Inductive OneOrMany (A : Type) : Type :=
| One (a : A)
| Many (l : list A).
Arguments One {A} a.
Arguments Many {A} l.

Record CustomersArgs := {
  cua_limit : option Z;
  cua_offset : option Z;
  cua_id : option (OneOrMany Z);
  cua_externalId : option (OneOrMany string) }.

(** [canViewCustomers] comes from [./rules] and [normalizePages] from
    [./helpers]: both are given to this module. *)
Class Collaborators := {
  canViewCustomers : Staff -> bool;
  normalizePages : CollectionArgs -> Pagination }.

(** [_.flatten([x])] *)
Definition flatten1 {A} (x : OneOrMany A) : list A :=
  match x with
  | One a => [a]
  | Many l => l
  end.

(** [opt !== void 0 ? mapper(opt) : void 0] *)
Definition option {A B} (opt : Datatypes.option A) (mapper : A -> B)
    : Datatypes.option B :=
  match opt with
  | Some x => Some (mapper x)
  | None => None
  end.

(** The where-clause of the customer read: each key is [{ in: [...] }] or
    [undefined]. *)
Record CustomerWhere := {
  cw_id_in : Datatypes.option (list Z);
  cw_externalId_in : Datatypes.option (list string) }.

(** An [undefined] key constrains nothing; [{ in: l }] asks for membership. *)
Definition customer_where (wh : CustomerWhere) (c : Customer) : bool :=
  match cw_id_in wh with
  | Some ids => existsb (Z.eqb (cu_id c)) ids
  | None => true
  end
  && match cw_externalId_in wh with
     | Some eids => existsb (String.eqb (cu_externalId c)) eids
     | None => true
     end.

(** [db.customer.findMany({ skip, take, where })]: no [orderBy], the rows
    come in the order of the table. *)
Definition customer_findMany (customers : list Customer) (skip limit : Z)
    (wh : CustomerWhere) : list Customer :=
  firstn (Z.to_nat limit)
    (skipn (Z.to_nat skip) (List.filter (customer_where wh) customers)).

Section Abilities.

Context `{Collaborators}.

(** [customerAbilities(staff)] *)
Variable staff : Staff.

Definition getCustomers (args : CustomersArgs) (customers : list Customer)
    : list Customer :=
  let p := normalizePages {| a_limit := cua_limit args; a_offset := cua_offset args |} in
  if negb (canViewCustomers staff) then []
  else
    customer_findMany customers (pg_offset p) (pg_limit p)
      {| cw_id_in := option (cua_id args) flatten1;
         cw_externalId_in := option (cua_externalId args) flatten1 |}.

(** [(await getCustomers({ id, offset: 0, limit: 1 }))[0] || null] *)
Definition getCustomerById (id : Z) (customers : list Customer)
    : Datatypes.option Customer :=
  head (getCustomers
          {| cua_limit := Some 1; cua_offset := Some 0; cua_id := Some (One id);
             cua_externalId := None |} customers).

End Abilities.

End Customers.

(** ** Loading the configuration ([config.ts]) *)

Module Config.

(** [GoodChatAuthConfig]: no authentication, or a webhook with its url. *)
Inductive GoodChatAuthConfig : Type :=
| AuthNone
| AuthWebhook (url : string).

(** The record [loadConfig] builds. *)
Record Loaded := {
  appName : string;
  goodchatHost : string;
  smoochAppId : string;
  smoochApiKeyId : string;
  smoochApiKeySecret : string;
  auth : GoodChatAuthConfig;
  redis_url : string }.

(** A read of the environment that may throw. *)
Inductive Read (E A : Type) : Type :=
| Got (a : A)
| Raised (e : E).
Arguments Got {E A} a.
Arguments Raised {E A} e.

(** The readers of [./utils/env]. *)
Class Env := {
  EnvError : Type;
  (** [read(name, fallback)] *)
  read : string -> string -> string;
  (** [read.strict(name)] *)
  read_strict : string -> Read EnvError string;
  (** [read.string.strict(name)] *)
  read_string_strict : string -> Read EnvError string;
  (** [read.bool(name)] *)
  read_bool : string -> bool }.

Definition and_then {E A B} (r : Read E A) (k : A -> Read E B) : Read E B :=
  match r with
  | Got a => k a
  | Raised e => Raised e
  end.

Section Loading.

Context `{Env}.

Definition authConfig : Read EnvError GoodChatAuthConfig :=
  if read_bool "NO_AUTH" then Got AuthNone
  else and_then (read_string_strict "GOODCHAT_AUTH_URL")
         (fun url => Got (AuthWebhook url)).

(** The properties of the object literal are evaluated in order. *)
Definition loadConfig : Read EnvError Loaded :=
  let appName := read "GOODCHAT_APP_NAME" "GoodChat" in
  and_then (read_strict "GOODCHAT_HOST") (fun goodchatHost =>
  and_then (read_strict "SMOOCH_APP_ID") (fun smoochAppId =>
  and_then (read_strict "SMOOCH_API_KEY_ID") (fun smoochApiKeyId =>
  and_then (read_strict "SMOOCH_API_KEY_SECRET") (fun smoochApiKeySecret =>
  and_then authConfig (fun auth =>
  and_then (read_strict "REDIS_URL") (fun url =>
  Got {| appName := appName; goodchatHost := goodchatHost;
         smoochAppId := smoochAppId; smoochApiKeyId := smoochApiKeyId;
         smoochApiKeySecret := smoochApiKeySecret; auth := auth;
         redis_url := url |})))))).

(** [reload]: [Object.assign(config, loadConfig())] on the module's
    [config]; a throw leaves it as it was. *)
Definition reload (config : Loaded) : Read EnvError unit * Loaded :=
  match loadConfig with
  | Got loaded => (Got tt, loaded)
  | Raised e => (Raised e, config)
  end.

End Loading.

End Config.

(** A concrete setting for the customer abilities and the environment. *)
Module Demo2.

#[global] Instance customer_collaborators : Customers.Collaborators :=
  {| Customers.canViewCustomers := fun s => String.eqb (staff_role s) "admin";
     Customers.normalizePages := normalizePages |}.

Definition customers : list Customers.Customer :=
  [{| Customers.cu_id := 0; Customers.cu_externalId := "a" |};
   {| Customers.cu_id := 4; Customers.cu_externalId := "b" |};
   {| Customers.cu_id := 6; Customers.cu_externalId := "c" |}].

(** An environment with every variable but the auth url, and [NO_AUTH]
    set. *)
#[global] Instance env_no_auth : Config.Env :=
  {| Config.EnvError := string;
     Config.read := fun _ fallback => fallback;
     Config.read_strict := fun name => Config.Got ("value of " ++ name)%string;
     Config.read_string_strict := fun name => Config.Raised name;
     Config.read_bool := fun name => String.eqb name "NO_AUTH" |}.

(** A store whose only conversation is of the CUSTOMER type and has no
    external identity yet. *)
Definition world_unbridged : World :=
  {| conversations := [Demo.conversation 3 None "CUSTOMER" 10];
     messages := []; staffConversations := [];
     conversationSeq := 4; messageSeq := 1; now := 100; outbox := [] |}.

(** A rule engine that scopes by type: anyone but an administrator sees
    the PUBLIC conversations only. *)
Definition by_type : Collaborators :=
  {| getConversationRules := fun s =>
       if String.eqb (staff_role s) "admin" then [] else [("type", VStr "PUBLIC")];
     allowedConversationTypes := Demo.allowed;
     ruleFilter := fun _ _ _ _ => false;
     postMessage := Demo.provider;
     config := None |}.

(** The demo's rule engine and provider with no configuration bound: no
    bridge to the provider. *)
Definition unbridged : Collaborators :=
  {| getConversationRules := Demo.rules;
     allowedConversationTypes := Demo.allowed;
     ruleFilter := Demo.relationFilter;
     postMessage := Demo.provider;
     config := None |}.

(** The demo store, the agent having been made a member of the CUSTOMER
    conversation 7 as well. *)
Definition world_member : World :=
  {| conversations := conversations Demo.world;
     messages := messages Demo.world;
     staffConversations := [{| sc_staffId := 2; sc_conversationId := 5 |};
                            {| sc_staffId := 2; sc_conversationId := 7 |}];
     conversationSeq := 9; messageSeq := 3; now := 100; outbox := [] |}.

End Demo2.

(** What a call of [sendMessage] may have done to the store and the
    provider: the Conversation table is as before, at most one Message row
    was appended, none when the call threw, at most one request went out,
    and a returned row is in the table. *)
Definition send_footprint (w w' : World) (r : Result Message) : Prop :=
  conversations w' = conversations w
  /\ (exists added, messages w' = messages w ++ added
                    /\ (length added <= 1)%nat
                    /\ (forall e, r = Thrown e -> added = []))
  /\ (exists sent, outbox w' = outbox w ++ sent /\ (length sent <= 1)%nat)
  /\ (forall row, r = Ok row -> In row (messages w')).

(** What a call of the reconciler may have done: only the Conversation
    table is written, no row is removed or renumbered, at most one row is
    added, and a returned row is in the table. *)
Definition reconcile_footprint (w w' : World) (r : Result Conversation) : Prop :=
  messages w' = messages w
  /\ staffConversations w' = staffConversations w
  /\ outbox w' = outbox w
  /\ messageSeq w' = messageSeq w
  /\ (exists added, map c_id (conversations w') = map c_id (conversations w) ++ added
                    /\ (length added <= 1)%nat)
  /\ (forall row, r = Ok row -> In row (conversations w')).

(** ** The facade of [index.ts]

    Its reads of conversations are those of [abilities.ts], word for word;
    its [sendMessage] takes the configuration as an argument of
    [abilities(staff, config)], does not join, and posts the content as it
    is. *)

Module Index.

(** A request to the provider as this file makes it: the conversation
    identity is passed as the row has it, null included, and the content as
    it is. *)
Record Request := {
  ir_appId : string;
  ir_conversationId : option string;
  ir_content : value }.

(** The provider's client as this file uses it: its answer to a request,
    given the requests so far, is one object with an [id]. *)
Class Provider := {
  postMessage : list Request -> Request -> Result ProviderMessage }.

(** The store, and the requests that went out through this facade. *)
Record State := {
  store : World;
  posted : list Request }.

(** A call of this facade runs on a state and leaves one, also when it
    throws. *)
Definition IM (A : Type) : Type := State -> Result A * State.

(** A call of the store. *)
Definition on_store {A} (c : M A) : IM A :=
  fun s => let (r, w') := c (store s) in
           (r, {| store := w'; posted := posted s |}).

Section Abilities.

Context `{Collaborators} `{Provider}.

(** [abilities(staff, config?)] *)
Variable staff : Staff.
Variable config : option GoodChatConfig.

(** [!config?.smoochAppId] *)
Definition no_app_id : bool :=
  match config with
  | Some cfg => negb (truthy (VStr (smoochAppId cfg)))
  | None => true
  end.

(** [sunshineMessages.postMessage(appId, conversationId, content)]: the
    request goes out, whatever the answer. *)
Definition sunshine_postMessage (appId : string) (conversationId : option string)
    (content : value) : IM ProviderMessage :=
  fun s =>
    let rq := {| ir_appId := appId; ir_conversationId := conversationId;
                 ir_content := content |} in
    (postMessage (posted s) rq,
     {| store := store s; posted := posted s ++ [rq] |}).

Definition sendMessage (conversationId : Z) (content : value) : IM Message :=
  fun s =>
    match getConversationById staff conversationId (store s) with
    | None => (Thrown Forbidden, s)
    | Some conversation =>
        let unsaveMessage :=
          {| um_conversationId := conversationId;
             um_content := content;
             um_sunshineMessageId := None;
             um_authorType := STAFF;
             um_authorId := staff_id staff;
             um_metadata := VObj [] |} in
        match String.eqb (c_type conversation) CUSTOMER, no_app_id, config with
        | true, false, Some config =>
            match sunshine_postMessage (smoochAppId config)
                    (c_sunshineConversationId conversation) content s with
            | (Ok response, s1) =>
                let sunshineMessageId := Some (pm_id response) in
                on_store
                  (Store.message_upsert sunshineMessageId no_message_update
                     {| um_conversationId := um_conversationId unsaveMessage;
                        um_content := um_content unsaveMessage;
                        um_sunshineMessageId := sunshineMessageId;
                        um_authorType := um_authorType unsaveMessage;
                        um_authorId := um_authorId unsaveMessage;
                        um_metadata := um_metadata unsaveMessage |}) s1
            | (Thrown e, s1) => (Thrown e, s1)
            end
        | _, _, _ =>
            on_store (Store.message_create unsaveMessage) s   (* No Sunshine *)
        end
    end.

Definition sendTextMessage (conversationId : Z) (text : string) : IM Message :=
  sendMessage conversationId (VObj [("type", VStr "text"); ("text", VStr text)]).

End Abilities.

End Index.

Module DemoIndex.

(** A provider for [index.ts] that answers with the id ["prov-1"], but is
    down for the conversation ["ext-down"]. *)
Definition provider : Index.Provider :=
  {| Index.postMessage := fun _ rq =>
       if bool_decide (Index.ir_conversationId rq = Some "ext-down")
       then Thrown (ProviderFailure "ECONNRESET")
       else Ok {| pm_id := "prov-1" |} |}.

(** The demo store, nothing posted yet. *)
Definition state : Index.State :=
  {| Index.store := Demo.world; Index.posted := [] |}.

End DemoIndex.

(** * Properties *)

(** ** Pagination *)

Lemma clamp_range (n : Z) : 0 <= clamp n 0 100 <= 100.
Proof.
  unfold clamp.
  destruct (n <=? 100) eqn:Hu; destruct (_ >=? 0) eqn:Hl; lia.
Qed.

Lemma clamp_inside (n : Z) : 0 <= n <= 100 -> clamp n 0 100 = n.
Proof.
  intros Hn. unfold clamp.
  destruct (n <=? 100) eqn:Hu; [|lia].
  destruct (n >=? 0) eqn:Hl; lia.
Qed.

Lemma clamp_below (n : Z) : n < 0 -> clamp n 0 100 = 0.
Proof.
  intros Hn. unfold clamp.
  destruct (n <=? 100) eqn:Hu; [|lia].
  destruct (n >=? 0) eqn:Hl; lia.
Qed.

Lemma clamp_above (n : Z) : 100 < n -> clamp n 0 100 = 100.
Proof.
  intros Hn. unfold clamp.
  destruct (n <=? 100) eqn:Hu; [lia|]. reflexivity.
Qed.

(** C5, as stated, fails: a limit of 0 lies in [0, 100] but is read as
    absent by [args.limit || 25], and comes out as 25. *)
Lemma normalizePages_limit_zero_is_default :
  let args := {| a_limit := Some 0; a_offset := None |} in
  a_limit args = Some 0
  /\ 0 <= 0 <= 100
  /\ pg_limit (normalizePages args) = 25
  /\ pg_limit (normalizePages args) <> 0.
Proof. cbn. repeat split; lia. Qed.

(** C5 (amended): for every pagination input the normalized limit and
    offset lie in [0, 100]; an absent limit gives 25 and an absent offset
    gives 0; a limit in [1, 100] and an offset in [0, 100] are returned as
    given; a limit of 0 is read as absent and gives 25; anything below the
    range gives 0 and anything above it gives 100.  No input is rejected:
    the normalizer is a total function. *)
Theorem normalizePages_clamps (args : CollectionArgs) :
  let p := normalizePages args in
  0 <= pg_limit p <= 100
  /\ 0 <= pg_offset p <= 100
  /\ (a_limit args = None -> pg_limit p = 25)
  /\ (a_offset args = None -> pg_offset p = 0)
  /\ (a_limit args = Some 0 -> pg_limit p = 25)
  /\ (forall n, a_limit args = Some n -> 1 <= n <= 100 -> pg_limit p = n)
  /\ (forall n, a_offset args = Some n -> 0 <= n <= 100 -> pg_offset p = n)
  /\ (forall n, a_limit args = Some n -> n < 0 -> pg_limit p = 0)
  /\ (forall n, a_offset args = Some n -> n < 0 -> pg_offset p = 0)
  /\ (forall n, a_limit args = Some n -> 100 < n -> pg_limit p = 100)
  /\ (forall n, a_offset args = Some n -> 100 < n -> pg_offset p = 100).
Proof.
  destruct args as [l o]; cbn.
  split; [apply clamp_range|]. split; [apply clamp_range|].
  repeat split.
  - intros ->. reflexivity.
  - intros ->. reflexivity.
  - intros ->. reflexivity.
  - intros n -> Hn. cbn. destruct (n =? 0) eqn:E; [lia|]. apply clamp_inside; lia.
  - intros n -> Hn. cbn. destruct (n =? 0) eqn:E.
    + apply Z.eqb_eq in E. subst. reflexivity.
    + apply clamp_inside; lia.
  - intros n -> Hn. cbn. destruct (n =? 0) eqn:E; [lia|]. apply clamp_below; lia.
  - intros n -> Hn. cbn. destruct (n =? 0) eqn:E; [lia|]. apply clamp_below; lia.
  - intros n -> Hn. cbn. destruct (n =? 0) eqn:E; [lia|]. apply clamp_above; lia.
  - intros n -> Hn. cbn. destruct (n =? 0) eqn:E; [lia|]. apply clamp_above; lia.
Qed.

Lemma normalizePages_clamps_witness :
  let p := normalizePages {| a_limit := Some 40; a_offset := Some 250 |} in
  pg_limit p = 40 /\ pg_offset p = 100.
Proof.
  pose proof (normalizePages_clamps {| a_limit := Some 40; a_offset := Some 250 |})
    as (_ & _ & _ & _ & _ & Hl & _ & _ & _ & _ & Ho).
  split.
  - apply (Hl 40); [reflexivity | lia].
  - apply (Ho 250); [reflexivity | lia].
Defined.

(** ** Ordering of the reads *)

Section Ordering.

Context {A : Type}.
Implicit Types (orderBy : list ((A -> Z) * SortOrder)) (x y z : A).

Lemma lex_leb_total orderBy x y :
  Store.lex_leb orderBy x y = true \/ Store.lex_leb orderBy y x = true.
Proof.
  induction orderBy as [|[col o] rest IH]; cbn; [now left|].
  destruct o;
    repeat match goal with
           | |- context [?a <? ?b] => destruct (Z.ltb_spec a b)
           end; auto; lia.
Qed.

Lemma lex_leb_trans orderBy x y z :
  Store.lex_leb orderBy x y = true ->
  Store.lex_leb orderBy y z = true ->
  Store.lex_leb orderBy x z = true.
Proof.
  induction orderBy as [|[col o] rest IH]; cbn; [reflexivity|].
  destruct o;
    repeat match goal with
           | |- context [?a <? ?b] => destruct (Z.ltb_spec a b)
           end; auto; try discriminate; try lia.
Qed.

#[local] Instance ordered_total orderBy : Total (Store.ordered orderBy).
Proof. intros x y. apply lex_leb_total. Qed.

#[local] Instance ordered_trans orderBy : Transitive (Store.ordered orderBy).
Proof. intros x y z. apply lex_leb_trans. Qed.

Lemma In_firstn (n : nat) (l : list A) x : In x (firstn n l) -> In x l.
Proof.
  revert l. induction n as [|n IH]; intros [|a l]; cbn; try tauto.
  intros [->|Hx]; [now left | right; now apply IH].
Qed.

Lemma In_skipn (n : nat) (l : list A) x : In x (skipn n l) -> In x l.
Proof.
  revert l. induction n as [|n IH]; intros [|a l]; cbn; try tauto.
  intros Hx. right. now apply IH.
Qed.

Lemma StronglySorted_skipn (R : relation A) (n : nat) (l : list A) :
  StronglySorted R l -> StronglySorted R (skipn n l).
Proof.
  revert l. induction n as [|n IH]; intros l Hl; [exact Hl|].
  destruct l as [|a l]; [constructor|].
  cbn. apply IH. now inversion Hl.
Qed.

Lemma StronglySorted_firstn (R : relation A) (n : nat) (l : list A) :
  StronglySorted R l -> StronglySorted R (firstn n l).
Proof.
  revert l. induction n as [|n IH]; intros l Hl; [constructor|].
  destruct l as [|a l]; [constructor|].
  cbn. inversion Hl as [|? ? Hs Hf]; subst.
  constructor; [now apply IH|].
  rewrite List.Forall_forall in *. intros b Hb.
  apply Hf. eapply In_firstn. exact Hb.
Qed.

(** What [findMany] returns: a window of the matching rows, ordered. *)
Lemma findMany_spec (rows : list A) (skip limit : Z) (where_ : A -> bool) orderBy :
  exists matching,
    matching ≡ₚ List.filter where_ rows
    /\ StronglySorted (Store.ordered orderBy) matching
    /\ Store.findMany rows skip limit where_ orderBy
       = firstn (Z.to_nat limit) (skipn (Z.to_nat skip) matching).
Proof.
  exists (merge_sort (Store.ordered orderBy) (List.filter where_ rows)).
  split; [apply merge_sort_Permutation|].
  split; [apply StronglySorted_merge_sort; apply _ | reflexivity].
Qed.

Lemma findMany_sorted (rows : list A) (skip limit : Z) (where_ : A -> bool) orderBy :
  StronglySorted (Store.ordered orderBy)
    (Store.findMany rows skip limit where_ orderBy).
Proof.
  unfold Store.findMany.
  apply StronglySorted_firstn, StronglySorted_skipn.
  apply StronglySorted_merge_sort; apply _.
Qed.

(** Every row a [findMany] returns is a row of the table that matches. *)
Lemma findMany_In (rows : list A) (skip limit : Z) (where_ : A -> bool) orderBy x :
  In x (Store.findMany rows skip limit where_ orderBy) ->
  In x rows /\ where_ x = true.
Proof.
  unfold Store.findMany. intros Hx.
  apply In_firstn, In_skipn in Hx.
  apply list_elem_of_In in Hx.
  rewrite merge_sort_Permutation in Hx.
  apply list_elem_of_In in Hx.
  now apply List.filter_In in Hx.
Qed.

Lemma findMany_none (rows : list A) (skip limit : Z) (where_ : A -> bool) orderBy :
  (forall x, In x rows -> where_ x = false) ->
  Store.findMany rows skip limit where_ orderBy = [].
Proof.
  intros Hnone.
  destruct (Store.findMany rows skip limit where_ orderBy) as [|x l] eqn:E;
    [reflexivity|].
  assert (Hx : In x (Store.findMany rows skip limit where_ orderBy))
    by (rewrite E; now left).
  apply findMany_In in Hx as [Hin Hw]. rewrite (Hnone _ Hin) in Hw. discriminate.
Qed.

End Ordering.

Lemma StronglySorted_impl {A} (R S : relation A) (l : list A) :
  (forall x y, R x y -> S x y) -> StronglySorted R l -> StronglySorted S l.
Proof.
  intros HRS. induction 1 as [|a l Hs IH Hf]; constructor; [exact IH|].
  eapply List.Forall_impl; [|exact Hf]. intros b. apply HRS.
Qed.

Lemma ordered_newest_first (c1 c2 : Conversation) :
  Store.ordered [(c_updatedAt, desc); (c_id, desc)] c1 c2 -> newest_first c1 c2.
Proof.
  unfold Store.ordered, newest_first. cbn.
  repeat match goal with
         | |- context [?a <? ?b] => destruct (Z.ltb_spec a b)
         end; intros; try discriminate; lia.
Qed.

Lemma ordered_by_creation (o : SortOrder) (m1 m2 : Message) :
  Store.ordered [(m_createdAt, o)] m1 m2 -> by_creation o m1 m2.
Proof.
  unfold Store.ordered, by_creation. destruct o; cbn;
  repeat match goal with
         | |- context [?a <? ?b] => destruct (Z.ltb_spec a b)
         end; intros; try discriminate; lia.
Qed.

(** C9: [getConversations] returns a page of the rows that match its
    where-clause, taken in the order most recently updated first and, among
    equal update times, larger identifier first; [getMessages] returns a
    page of the matching rows ordered by creation time in the direction the
    caller gave, descending when none was given. *)
Theorem reads_are_ordered `{Collaborators} (staff : Staff) (w : World)
    (args : ConversationsArgs) (margs : MessageArgs) :
  (exists visible,
      visible ≡ₚ List.filter (Store.conversation_where w (conversations_where staff args))
                   (conversations w)
      /\ StronglySorted newest_first visible
      /\ getConversations staff args w
         = page (normalizePages {| a_limit := ca_limit args; a_offset := ca_offset args |})
             visible)
  /\ StronglySorted newest_first (getConversations staff args w)
  /\ (exists visible,
         visible ≡ₚ List.filter (Store.message_where w (messages_where staff margs))
                      (messages w)
         /\ StronglySorted (by_creation (default desc (ma_order margs))) visible
         /\ getMessages staff margs w
            = page (normalizePages {| a_limit := ma_limit margs; a_offset := ma_offset margs |})
                visible)
  /\ StronglySorted (by_creation (default desc (ma_order margs)))
       (getMessages staff margs w)
  /\ (ma_order margs = None ->
      StronglySorted (by_creation desc) (getMessages staff margs w)).
Proof.
  split; [|split; [|split; [|split]]].
  - unfold getConversations.
    destruct (findMany_spec (conversations w)
                (pg_offset (normalizePages {| a_limit := ca_limit args; a_offset := ca_offset args |}))
                (pg_limit (normalizePages {| a_limit := ca_limit args; a_offset := ca_offset args |}))
                (Store.conversation_where w (conversations_where staff args))
                [(c_updatedAt, desc); (c_id, desc)]) as (v & Hp & Hs & He).
    exists v. split; [exact Hp|]. split; [|exact He].
    eapply StronglySorted_impl; [|exact Hs]. apply ordered_newest_first.
  - eapply StronglySorted_impl; [apply ordered_newest_first|].
    apply findMany_sorted.
  - unfold getMessages.
    destruct (findMany_spec (messages w)
                (pg_offset (normalizePages {| a_limit := ma_limit margs; a_offset := ma_offset margs |}))
                (pg_limit (normalizePages {| a_limit := ma_limit margs; a_offset := ma_offset margs |}))
                (Store.message_where w (messages_where staff margs))
                [(m_createdAt, default desc (ma_order margs))]) as (v & Hp & Hs & He).
    exists v. split; [exact Hp|]. split; [|exact He].
    eapply StronglySorted_impl; [|exact Hs]. apply ordered_by_creation.
  - eapply StronglySorted_impl; [apply ordered_by_creation|].
    apply findMany_sorted.
  - intros Hnone.
    eapply StronglySorted_impl; [apply (ordered_by_creation desc)|].
    unfold getMessages. rewrite Hnone. apply findMany_sorted.
Qed.

Lemma reads_are_ordered_witness :
  StronglySorted (by_creation desc)
    (getMessages Demo.agent
       {| ma_limit := None; ma_offset := None; ma_conversationId := None;
          ma_id := None; ma_order := None |} Demo.world).
Proof.
  apply (reads_are_ordered Demo.agent Demo.world
           {| ca_limit := None; ca_offset := None; ca_type := Absent;
              ca_customerId := Absent; ca_id := Absent |}
           {| ma_limit := None; ma_offset := None; ma_conversationId := None;
              ma_id := None; ma_order := None |}).
  reflexivity.
Defined.

(** ** Objects: spreading and cleaning *)

Module JsFacts.

Import JsRel.

Lemma has_set (o : JsObject) (k k' : string) (v : value) :
  Js.has (Js.set o k v) k' = (String.eqb k k' || Js.has o k')%bool.
Proof.
  induction o as [|[k0 v0] o IH]; cbn.
  - destruct (String.eqb k k'); reflexivity.
  - destruct (String.eqb_spec k0 k) as [->|Hne]; cbn.
    + destruct (String.eqb k k'); reflexivity.
    + rewrite IH. destruct (String.eqb k0 k'), (String.eqb k k'); reflexivity.
Qed.

Lemma has_app (l1 l2 : JsObject) (k : string) :
  Js.has (l1 ++ l2) k = (Js.has l1 k || Js.has l2 k)%bool.
Proof.
  induction l1 as [|[k0 v0] l1 IH]; cbn; [reflexivity|].
  destruct (String.eqb k0 k); [reflexivity | exact IH].
Qed.

Lemma set_app (l1 l2 : JsObject) (k : string) (v : value) :
  Js.set (l1 ++ l2) k v
  = if Js.has l1 k then (Js.set l1 k v ++ l2)%list else (l1 ++ Js.set l2 k v)%list.
Proof.
  induction l1 as [|[k0 v0] l1 IH]; cbn; [reflexivity|].
  destruct (String.eqb k0 k); [reflexivity|].
  rewrite IH. destruct (Js.has l1 k); reflexivity.
Qed.

Lemma set_fresh (o : JsObject) (k : string) (v : value) :
  Js.has o k = false -> Js.set o k v = (o ++ [(k, v)])%list.
Proof.
  induction o as [|[k0 v0] o IH]; cbn; [reflexivity|].
  destruct (String.eqb k0 k); [discriminate|].
  intros Hk. now rewrite IH.
Qed.

Lemma has_spread (a b : JsObject) (k : string) :
  Js.has (Js.spread a b) k = (Js.has a k || Js.has b k)%bool.
Proof.
  unfold Js.spread. revert a.
  induction b as [|[k0 v0] b IH]; intros a; cbn.
  - now rewrite orb_false_r.
  - rewrite IH, has_set.
    destruct (String.eqb k0 k), (Js.has a k), (Js.has b k); reflexivity.
Qed.

Lemma has_pickBy (o : JsObject) (p : value -> bool) (k : string) :
  Js.has o k = false -> Js.has (Js.pickBy o p) k = false.
Proof.
  induction o as [|[k0 v0] o IH]; cbn; [reflexivity|].
  destruct (String.eqb k0 k) eqn:E; [discriminate|].
  intros Hk. destruct (p v0); cbn; [rewrite E|]; now apply IH.
Qed.

Lemma agree_refl (o : JsObject) : agree o o.
Proof. induction o; constructor; auto. Qed.

Lemma agree_set (o o' : JsObject) (k : string) (v v' : value) :
  agree o o' ->
  v = v' \/ (truthy v = false /\ truthy v' = false) ->
  agree (Js.set o k v) (Js.set o' k v').
Proof.
  intros Ho Hv. induction Ho as [|[k0 v0] [k0' v0'] o o' [Hk Hv0] Ho IH]; cbn in *.
  - constructor; [split; auto | constructor].
  - subst k0'. destruct (String.eqb k0 k).
    + constructor; [split; auto | exact Ho].
    + constructor; [split; auto | exact IH].
Qed.

Lemma agree_spread (a a' b b' : JsObject) :
  agree a a' -> agree b b' -> agree (Js.spread a b) (Js.spread a' b').
Proof.
  intros Ha Hb. revert a a' Ha.
  induction Hb as [|[k v] [k' v'] b b' [Hk Hv] Hb IH]; intros a a' Ha; cbn in *.
  - exact Ha.
  - subst k'. apply IH. now apply agree_set.
Qed.

Lemma agree_pickBy_truthy (o o' : JsObject) :
  agree o o' -> Js.pickBy o truthy = Js.pickBy o' truthy.
Proof.
  unfold Js.pickBy.
  induction 1 as [|[k v] [k' v'] o o' [Hk Hv] Ho IH]; cbn in *; [reflexivity|].
  subst k'. destruct Hv as [->|[-> ->]]; [|exact IH].
  destruct (truthy v'); [now rewrite IH | exact IH].
Qed.

Lemma extra_start (k : string) (o : JsObject) (v : value) :
  Js.has o k = false -> truthy v = false -> extra k o (Js.set o k v).
Proof.
  intros Hk Hv. exists o, [], v. rewrite app_nil_r.
  repeat split; auto. now apply set_fresh.
Qed.

Lemma extra_set (k k' : string) (o o' : JsObject) (v' : value) :
  k' <> k -> extra k o o' -> extra k (Js.set o k' v') (Js.set o' k' v').
Proof.
  intros Hne (l1 & l2 & v & -> & -> & Hv & Hk).
  rewrite !set_app. rewrite has_app in Hk.
  apply orb_false_iff in Hk as [Hk1 Hk2].
  destruct (Js.has l1 k') eqn:E1.
  - exists (Js.set l1 k' v'), l2, v. repeat split; auto.
    rewrite has_app, has_set, Hk1, Hk2.
    destruct (String.eqb_spec k' k); [contradiction | reflexivity].
  - exists l1, (Js.set l2 k' v'), v. cbn.
    destruct (String.eqb_spec k k') as [->|_]; [contradiction|].
    repeat split; auto.
    rewrite has_app, has_set, Hk1, Hk2.
    destruct (String.eqb_spec k' k); [contradiction | reflexivity].
Qed.

Lemma extra_pickBy_truthy (k : string) (o o' : JsObject) :
  extra k o o' -> Js.pickBy o' truthy = Js.pickBy o truthy.
Proof.
  intros (l1 & l2 & v & -> & -> & Hv & _).
  unfold Js.pickBy. rewrite !List.filter_app. cbn. now rewrite Hv.
Qed.

End JsFacts.

(** ** Falsy filters *)

Section FalsyFilters.

Context `{Collaborators} (staff : Staff).

Ltac agree_entries :=
  repeat (constructor;
          [split; [reflexivity
                  | first [left; reflexivity | right; split; reflexivity]] |]);
  constructor.

Lemma conversations_where_id_zero (args : ConversationsArgs) :
  conversations_where staff (with_id args (Given 0))
  = conversations_where staff (with_id args Undefined).
Proof.
  unfold conversations_where, clean.
  apply JsFacts.agree_pickBy_truthy, JsFacts.agree_spread; [apply JsFacts.agree_refl|].
  destruct args as [l o [| |t] [| |c] i]; cbn; agree_entries.
Qed.

Lemma conversations_where_customerId_zero (args : ConversationsArgs) :
  conversations_where staff (with_customerId args (Given 0))
  = conversations_where staff (with_customerId args Undefined).
Proof.
  unfold conversations_where, clean.
  apply JsFacts.agree_pickBy_truthy, JsFacts.agree_spread; [apply JsFacts.agree_refl|].
  destruct args as [l o [| |t] c [| |i]]; cbn; agree_entries.
Qed.

Lemma conversations_where_type_empty (args : ConversationsArgs) :
  conversations_where staff (with_type args (Given ""))
  = conversations_where staff (with_type args Undefined).
Proof.
  unfold conversations_where, clean.
  apply JsFacts.agree_pickBy_truthy, JsFacts.agree_spread; [apply JsFacts.agree_refl|].
  destruct args as [l o t [| |c] [| |i]]; cbn; agree_entries.
Qed.

Ltac fresh_key Hk :=
  rewrite ?JsFacts.has_set, Hk; reflexivity.

Lemma conversations_where_id_zero_absent (args : ConversationsArgs) :
  Js.has (getConversationRules staff) "id" = false ->
  conversations_where staff (with_id args (Given 0))
  = conversations_where staff (with_id args Absent).
Proof.
  intros Hk. unfold conversations_where, clean.
  apply JsFacts.extra_pickBy_truthy with (k := "id").
  destruct args as [l o [| |t] [| |c] i]; cbn;
    repeat (apply JsFacts.extra_set; [discriminate|]);
    (apply JsFacts.extra_start; [fresh_key Hk | reflexivity]).
Qed.

Lemma conversations_where_customerId_zero_absent (args : ConversationsArgs) :
  Js.has (getConversationRules staff) "customerId" = false ->
  conversations_where staff (with_customerId args (Given 0))
  = conversations_where staff (with_customerId args Absent).
Proof.
  intros Hk. unfold conversations_where, clean.
  apply JsFacts.extra_pickBy_truthy with (k := "customerId").
  destruct args as [l o [| |t] c [| |i]]; cbn;
    repeat (apply JsFacts.extra_set; [discriminate|]);
    (apply JsFacts.extra_start; [fresh_key Hk | reflexivity]).
Qed.

Lemma getConversations_where (args args' : ConversationsArgs) (w : World) :
  ca_limit args = ca_limit args' -> ca_offset args = ca_offset args' ->
  conversations_where staff args = conversations_where staff args' ->
  getConversations staff args w = getConversations staff args' w.
Proof. unfold getConversations. now intros -> -> ->. Qed.

Lemma getMessages_where (args args' : MessageArgs) (w : World) :
  ma_limit args = ma_limit args' -> ma_offset args = ma_offset args' ->
  ma_order args = ma_order args' ->
  messages_where staff args = messages_where staff args' ->
  getMessages staff args w = getMessages staff args' w.
Proof. unfold getMessages. now intros -> -> -> ->. Qed.

End FalsyFilters.

(** C10: a filter given as 0 is stripped from the compiled where-clause
    exactly as one given as [undefined] is: [getConversations] with [id] (or
    [customerId]) 0, or with the empty string as [type], compiles the same
    clause and returns the same rows as
    with that filter [undefined], and, when the rule engine itself does not
    constrain that key, the same as with the filter left out, in which case
    the compiled clause has no constraint on the key at all; [getMessages]
    with [id] (or [conversationId]) 0 compiles the same clause, one without
    that key, and returns the same rows as without the filter. *)
Theorem falsy_filters_are_stripped `{Collaborators} (staff : Staff) (w : World)
    (args : ConversationsArgs) (margs : MessageArgs) :
  (conversations_where staff (with_id args (Given 0))
   = conversations_where staff (with_id args Undefined)
   /\ getConversations staff (with_id args (Given 0)) w
      = getConversations staff (with_id args Undefined) w)
  /\ (conversations_where staff (with_customerId args (Given 0))
      = conversations_where staff (with_customerId args Undefined)
      /\ getConversations staff (with_customerId args (Given 0)) w
         = getConversations staff (with_customerId args Undefined) w)
  /\ (conversations_where staff (with_type args (Given ""))
      = conversations_where staff (with_type args Undefined)
      /\ getConversations staff (with_type args (Given "")) w
         = getConversations staff (with_type args Undefined) w)
  /\ (Js.has (getConversationRules staff) "id" = false ->
      conversations_where staff (with_id args (Given 0))
      = conversations_where staff (with_id args Absent)
      /\ getConversations staff (with_id args (Given 0)) w
         = getConversations staff (with_id args Absent) w
      /\ Js.has (conversations_where staff (with_id args (Given 0))) "id" = false)
  /\ (Js.has (getConversationRules staff) "customerId" = false ->
      conversations_where staff (with_customerId args (Given 0))
      = conversations_where staff (with_customerId args Absent)
      /\ getConversations staff (with_customerId args (Given 0)) w
         = getConversations staff (with_customerId args Absent) w
      /\ Js.has (conversations_where staff (with_customerId args (Given 0)))
           "customerId" = false)
  /\ (messages_where staff (with_message_id margs (Some 0))
      = messages_where staff (with_message_id margs None)
      /\ getMessages staff (with_message_id margs (Some 0)) w
         = getMessages staff (with_message_id margs None) w
      /\ Js.has (messages_where staff (with_message_id margs (Some 0))) "id" = false)
  /\ (messages_where staff (with_conversationId margs (Some 0))
      = messages_where staff (with_conversationId margs None)
      /\ getMessages staff (with_conversationId margs (Some 0)) w
         = getMessages staff (with_conversationId margs None) w
      /\ Js.has (messages_where staff (with_conversationId margs (Some 0)))
           "conversationId" = false).
Proof.
  split; [|split; [|split; [|split; [|split; [|split]]]]].
  - split; [apply conversations_where_id_zero|].
    apply getConversations_where; try reflexivity. apply conversations_where_id_zero.
  - split; [apply conversations_where_customerId_zero|].
    apply getConversations_where; try reflexivity.
    apply conversations_where_customerId_zero.
  - split; [apply conversations_where_type_empty|].
    apply getConversations_where; try reflexivity.
    apply conversations_where_type_empty.
  - intros Hk.
    pose proof (conversations_where_id_zero_absent staff args Hk) as E.
    split; [exact E|]. split; [now apply getConversations_where|].
    rewrite E. unfold conversations_where, clean.
    apply JsFacts.has_pickBy. rewrite JsFacts.has_spread, Hk.
    destruct args as [l o [| |t] [| |c] i]; reflexivity.
  - intros Hk.
    pose proof (conversations_where_customerId_zero_absent staff args Hk) as E.
    split; [exact E|]. split; [now apply getConversations_where|].
    rewrite E. unfold conversations_where, clean.
    apply JsFacts.has_pickBy. rewrite JsFacts.has_spread, Hk.
    destruct args as [l o [| |t] c [| |i]]; reflexivity.
  - assert (E : messages_where staff (with_message_id margs (Some 0))
                = messages_where staff (with_message_id margs None)) by reflexivity.
    split; [exact E|]. split; [now apply getMessages_where|].
    destruct margs as [l o [c|] i ord]; cbn; [destruct (c =? 0)|]; reflexivity.
  - assert (E : messages_where staff (with_conversationId margs (Some 0))
                = messages_where staff (with_conversationId margs None)) by reflexivity.
    split; [exact E|]. split; [now apply getMessages_where|].
    destruct margs as [l o c [i|] ord]; cbn; [destruct (i =? 0)|]; reflexivity.
Qed.

Lemma falsy_filters_are_stripped_witness :
  let args := {| ca_limit := None; ca_offset := None; ca_type := Absent;
                 ca_customerId := Absent; ca_id := Absent |} in
  getConversations Demo.agent (with_id args (Given 0)) Demo.world_zero
  = getConversations Demo.agent (with_id args Absent) Demo.world_zero
  /\ map c_id (getConversations Demo.agent (with_id args (Given 0)) Demo.world_zero)
     = [5].
Proof.
  split; [|reflexivity].
  apply (falsy_filters_are_stripped Demo.agent Demo.world_zero
           {| ca_limit := None; ca_offset := None; ca_type := Absent;
              ca_customerId := Absent; ca_id := Absent |}
           {| ma_limit := None; ma_offset := None; ma_conversationId := None;
              ma_id := None; ma_order := None |}).
  reflexivity.
Defined.

(** ** Reads outside the scope *)

Section Scope.

Context `{Collaborators} (P : Staff).

Lemma pickBy_truthy_all (o : JsObject) :
  Forall (fun kv => truthy (snd kv) = true) o -> Js.pickBy o truthy = o.
Proof.
  unfold Js.pickBy. induction 1 as [|kv o Hkv Ho IH]; cbn; [reflexivity|].
  now rewrite Hkv, IH.
Qed.

Lemma conversation_where_app (w : World) (o1 o2 : JsObject) (c : Conversation) :
  Store.conversation_where w (o1 ++ o2) c
  = (Store.conversation_where w o1 c && Store.conversation_where w o2 c)%bool.
Proof. unfold Store.conversation_where. apply forallb_app. Qed.

(** The clause [getConversationById] compiles, for a principal whose
    rules pass [clean] and leave [id] alone, and a non-zero id. *)
Lemma conversations_where_by_id (n : Z) :
  n <> 0 -> rules_truthy P -> Js.has (getConversationRules P) "id" = false ->
  conversations_where P
    {| ca_limit := Some 1; ca_offset := Some 0; ca_type := Absent;
       ca_customerId := Absent; ca_id := Given n |}
  = getConversationRules P ++ [("id", VNum n)].
Proof.
  intros Hn Ht Hk. unfold conversations_where, clean. cbn.
  rewrite JsFacts.set_fresh by exact Hk.
  apply pickBy_truthy_all. apply Forall_app. split; [exact Ht|].
  constructor; [|constructor]. cbn.
  destruct (Z.eqb_spec n 0); [contradiction | reflexivity].
Qed.

Lemma getConversationById_out_of_scope (w : World) (n : Z) :
  n <> 0 -> rules_truthy P -> Js.has (getConversationRules P) "id" = false ->
  (forall c, In c (conversations w) -> c_id c = n -> in_scope P w c = false) ->
  getConversationById P n w = None.
Proof.
  intros Hn Ht Hk Hout. unfold getConversationById, getConversations.
  rewrite conversations_where_by_id by assumption.
  rewrite findMany_none; [reflexivity|].
  intros c Hc. rewrite conversation_where_app.
  destruct (Z.eqb_spec (c_id c) n) as [E|E].
  - unfold in_scope in Hout. now rewrite (Hout c Hc E).
  - apply andb_false_iff. right. cbn. rewrite andb_true_r.
    now apply Z.eqb_neq.
Qed.

Lemma getMessages_out_of_scope (w : World) (n : Z) (args : MessageArgs) :
  n <> 0 ->
  (forall c, In c (conversations w) -> c_id c = n -> in_scope P w c = false) ->
  ma_conversationId args = Some n ->
  getMessages P args w = [].
Proof.
  intros Hn Hout Hc. unfold getMessages. apply findMany_none.
  intros m _.
  assert (Hrel : forall rules',
             m_conversationId m = n ->
             existsb (fun c => (c_id c =? m_conversationId m)
                               && Store.conversation_where w (getConversationRules P) c)
               (conversations w) = rules' -> rules' = false).
  { intros r Em <-. apply not_true_is_false. intros Hex.
    apply existsb_exists in Hex as (c & Hin & Hc').
    apply andb_true_iff in Hc' as [Hid Hw].
    apply Z.eqb_eq in Hid. rewrite Em in Hid.
    unfold in_scope in Hout. rewrite (Hout c Hin Hid) in Hw. discriminate. }
  unfold messages_where, clean. rewrite Hc. cbn.
  destruct (Z.eqb_spec n 0) as [|_]; [contradiction|]. cbn.
  destruct (Z.eq_dec (m_conversationId m) n) as [Em|Em].
  - destruct (truthy (prop (ma_id args))); cbn;
      now rewrite (Hrel _ Em eq_refl).
  - apply Z.eqb_neq in Em.
    destruct (truthy (prop (ma_id args))); cbn;
      rewrite Em; cbn; rewrite ?andb_false_r; reflexivity.
Qed.

End Scope.

(** C2: at id 0 the reads do not keep to the scope.  [clean] strips the
    [id] and [conversationId] filters when they are 0, so the agent, whose
    scope is conversation 5, is handed conversation 5 by
    [getConversationById(0)] and the message of conversation 5 by
    [getMessages] filtered to conversation 0: on a store that holds a
    conversation 0 outside the agent's scope, and just the same on a store
    that holds no conversation 0.  The lookup of a customer by id, written
    with [opt !== void 0], keeps the id 0 and finds customer 0. *)
Theorem reads_by_id_zero_return_other_rows :
  let c0 := Demo.conversation 0 None "PRIVATE" 10 in
  let c5 := Demo.conversation 5 None "PRIVATE" 30 in
  let to_conversation_0 :=
    {| ma_limit := None; ma_offset := None; ma_conversationId := Some 0;
       ma_id := None; ma_order := None |} in
  (In c0 (conversations Demo.world_zero)
   /\ in_scope Demo.agent Demo.world_zero c0 = false
   /\ getConversationById Demo.agent (c_id c0) Demo.world_zero = Some c5
   /\ getMessages Demo.agent to_conversation_0 Demo.world_zero
      = [Demo.message 1 5 None 11])
  /\ (existsb (fun c => c_id c =? 0) (conversations Demo.world) = false
      /\ getConversationById Demo.agent 0 Demo.world = Some c5
      /\ getMessages Demo.agent to_conversation_0 Demo.world
         = [Demo.message 1 5 None 11])
  /\ Customers.getCustomerById Demo.admin 0 Demo2.customers
     = Some {| Customers.cu_id := 0; Customers.cu_externalId := "a" |}.
Proof.
  cbv zeta. split; [|split].
  - split; [now left|]. split; [reflexivity|]. split; reflexivity.
  - split; [reflexivity|]. split; reflexivity.
  - reflexivity.
Qed.

(** X21: for every staff principal and every id other than 0 under which
    no conversation of the store lies in the principal's rule-engine scope,
    [getMessages] filtered to that id returns the empty sequence, whatever
    the rule predicate is, and, when the rule predicate has only truthy
    values and does not constrain [id], [getConversationById] returns
    null. *)
Theorem reads_outside_scope_are_empty `{Collaborators} (P : Staff) (w : World) (n : Z) :
  n <> 0 ->
  (forall c, In c (conversations w) -> c_id c = n -> in_scope P w c = false) ->
  (forall args, ma_conversationId args = Some n -> getMessages P args w = [])
  /\ (rules_truthy P -> Js.has (getConversationRules P) "id" = false ->
      getConversationById P n w = None).
Proof.
  intros Hn Hout. split.
  - intros args Hc. now apply getMessages_out_of_scope with (n := n).
  - intros Ht Hk. now apply getConversationById_out_of_scope.
Qed.

Lemma reads_outside_scope_are_empty_witness :
  getConversationById Demo.agent 7 Demo.world = None
  /\ getMessages Demo.agent
       {| ma_limit := None; ma_offset := None; ma_conversationId := Some 7;
          ma_id := None; ma_order := None |} Demo.world = [].
Proof.
  assert (Hn : 7 <> 0) by discriminate.
  assert (Hout : forall c, In c (conversations Demo.world) -> c_id c = 7 ->
                           in_scope Demo.agent Demo.world c = false).
  { intros c [<-|[<-|[<-|[]]]] E; try discriminate E; reflexivity. }
  destruct (reads_outside_scope_are_empty Demo.agent Demo.world 7 Hn Hout)
    as (Hmsgs & Hby).
  split.
  - apply Hby; [|reflexivity]. repeat constructor.
  - apply Hmsgs. reflexivity.
Defined.

(** ** Lists of rows *)

Section Rows.

Context {A : Type}.
Implicit Types (p : A -> bool) (rows : list A).

Lemma replace_first_found p rows r :
  List.find p rows = Some r -> Store.replace_first p r rows = rows.
Proof.
  induction rows as [|a rows IH]; cbn; [discriminate|].
  destruct (p a); [now intros [= ->]|].
  intros Hf. now rewrite IH.
Qed.

Lemma existsb_find p rows :
  existsb p rows = match List.find p rows with Some _ => true | None => false end.
Proof.
  induction rows as [|a rows IH]; cbn; [reflexivity|].
  destruct (p a); [reflexivity | exact IH].
Qed.

Lemma filter_none p rows : existsb p rows = false -> List.filter p rows = [].
Proof.
  induction rows as [|a rows IH]; cbn; [reflexivity|].
  destruct (p a); [discriminate | exact IH].
Qed.

Lemma filter_some p rows :
  existsb p rows = true -> (1 <= length (List.filter p rows))%nat.
Proof.
  induction rows as [|a rows IH]; cbn; [discriminate|].
  destruct (p a); cbn; [lia | exact IH].
Qed.

Lemma find_app_none p rows rows' :
  List.find p rows = None -> List.find p (rows ++ rows') = List.find p rows'.
Proof.
  induction rows as [|a rows IH]; cbn; [reflexivity|].
  destruct (p a); [discriminate | exact IH].
Qed.

Lemma length_filter_app p rows rows' :
  length (List.filter p (rows ++ rows'))
  = (length (List.filter p rows) + length (List.filter p rows'))%nat.
Proof. now rewrite List.filter_app, length_app. Qed.

End Rows.

(** ** Joining *)

Section Joining.

Context `{Collaborators} (staff : Staff).

Lemma staffConversation_key_eq (k r : StaffConversation) :
  Store.staffConversation_has_key k r = true -> r = k.
Proof.
  unfold Store.staffConversation_has_key. intros Hk.
  apply andb_true_iff in Hk as [H1 H2].
  apply Z.eqb_eq in H1, H2. destruct k, r; cbn in *. congruence.
Qed.

Lemma staffConversation_key_refl (k : StaffConversation) :
  Store.staffConversation_has_key k k = true.
Proof. unfold Store.staffConversation_has_key. now rewrite !Z.eqb_refl. Qed.

(** The join upsert: its update branch leaves the table as it is. *)
Lemma join_upsert (k : StaffConversation) (w : World) :
  Store.staffConversations_upsert k no_staffConversation_update k w
  = (Ok k,
     with_staffConversations w
       (if existsb (Store.staffConversation_has_key k) (staffConversations w)
        then staffConversations w
        else staffConversations w ++ [k])).
Proof.
  unfold Store.staffConversations_upsert. rewrite existsb_find.
  destruct (List.find _ (staffConversations w)) as [old|] eqn:Hf.
  - pose proof (List.find_some _ _ Hf) as [_ Hold].
    apply staffConversation_key_eq in Hold. subst old.
    replace (Store.patch_staffConversation no_staffConversation_update k) with k
      by (now destruct k).
    rewrite staffConversation_key_refl. cbn.
    now rewrite replace_first_found.
  - reflexivity.
Qed.

Lemma addToConversation_eq (id : Z) (user : Staff) (w : World) :
  let key := {| sc_staffId := staff_id user; sc_conversationId := id |} in
  addToConversation staff id user w
  = match getConversationById staff id w with
    | None => (Thrown Forbidden, w)
    | Some c =>
        if includes (allowedConversationTypes user) (c_type c)
        then (Ok key,
              with_staffConversations w
                (if existsb (Store.staffConversation_has_key key) (staffConversations w)
                 then staffConversations w
                 else staffConversations w ++ [key]))
        else (Thrown Forbidden, w)
    end.
Proof.
  cbv zeta. unfold addToConversation, bind, read, throw.
  destruct (getConversationById staff id w) as [c|]; [|reflexivity].
  destruct (includes (allowedConversationTypes user) (c_type c)); cbn;
    [apply join_upsert | reflexivity].
Qed.

Lemma joined_rows_after (k : StaffConversation) (w : World) :
  (joined_rows k w <= 1)%nat ->
  joined_rows k
    (with_staffConversations w
       (if existsb (Store.staffConversation_has_key k) (staffConversations w)
        then staffConversations w
        else staffConversations w ++ [k])) = 1%nat.
Proof.
  unfold joined_rows. cbn. intros Hle.
  destruct (existsb _ (staffConversations w)) eqn:Hex.
  - apply filter_some in Hex. lia.
  - rewrite length_filter_app, (filter_none _ _ Hex). cbn.
    now rewrite staffConversation_key_refl.
Qed.

Lemma joined_rows_present (k : StaffConversation) (w : World) :
  (1 <= joined_rows k
          (with_staffConversations w
             (if existsb (Store.staffConversation_has_key k) (staffConversations w)
              then staffConversations w
              else staffConversations w ++ [k])))%nat.
Proof.
  unfold joined_rows. cbn.
  destruct (existsb _ (staffConversations w)) eqn:Hex.
  - now apply filter_some.
  - rewrite length_filter_app. cbn. rewrite staffConversation_key_refl. cbn. lia.
Qed.

(** Whatever a call of [addToConversation] does, a pair that had one row
    still has one. *)
Lemma joined_rows_kept (id : Z) (user : Staff) (w w' : World)
    (r : Result StaffConversation) :
  let key := {| sc_staffId := staff_id user; sc_conversationId := id |} in
  addToConversation staff id user w = (r, w') ->
  joined_rows key w = 1%nat -> joined_rows key w' = 1%nat.
Proof.
  cbv zeta. rewrite addToConversation_eq.
  destruct (getConversationById staff id w) as [c|]; [|now intros [= _ <-]].
  destruct (includes _ _); [|now intros [= _ <-]].
  intros [= _ <-] H1. apply joined_rows_after. lia.
Qed.

End Joining.

(** C6: at id 0 [addToConversation] does not refuse.  The store holds no
    conversation 0, yet the agent's lookup of id 0, its filter stripped by
    [clean], finds conversation 5; both checks are made on conversation 5
    and pass, and the join row is made for the pair (agent, 0).  On a store
    that holds a conversation 0 outside the agent's scope the same call
    makes the agent a member of it, and so brings it into the agent's
    scope. *)
Theorem addToConversation_by_id_zero_is_not_refused :
  let c0 := Demo.conversation 0 None "PRIVATE" 10 in
  let c5 := Demo.conversation 5 None "PRIVATE" 30 in
  let key := {| sc_staffId := 2; sc_conversationId := 0 |} in
  (existsb (fun c => c_id c =? 0) (conversations Demo.world) = false
   /\ getConversationById Demo.agent 0 Demo.world = Some c5
   /\ exists w',
        addToConversation Demo.agent 0 Demo.agent Demo.world = (Ok key, w')
        /\ staffConversations w' = staffConversations Demo.world ++ [key])
  /\ (In c0 (conversations Demo.world_zero)
      /\ in_scope Demo.agent Demo.world_zero c0 = false
      /\ exists w',
           addToConversation Demo.agent 0 Demo.agent Demo.world_zero = (Ok key, w')
           /\ staffConversations w' = staffConversations Demo.world_zero ++ [key]
           /\ in_scope Demo.agent w' c0 = true).
Proof.
  cbv zeta. split.
  - split; [reflexivity|]. split; [reflexivity|].
    eexists. split; [vm_compute; reflexivity | reflexivity].
  - split; [now left|]. split; [reflexivity|].
    eexists. split; [vm_compute; reflexivity|]. split; reflexivity.
Qed.

(** X23: [addToConversation] throws the access-denied error, leaving the
    store as it was, when the acting staff's lookup of the id finds nothing,
    and also when the lookup finds a conversation whose type is not among
    the types the target principal may join; when the lookup finds a
    conversation of a type the target may join it returns the
    StaffConversation row of the target and the id, created if it was not
    there and left alone if it was, touching no other table; a pair with at
    most one row ends with exactly one, and still has exactly one after any
    further call for the same pair; [joinConversation] is the call with the
    acting staff as target; and for an acting staff whose rule predicate has
    only truthy values and does not constrain [id], a call with an id other
    than 0 under which no conversation of the store lies in the acting
    staff's scope throws the access-denied error. *)
Theorem addToConversation_checks_then_joins `{Collaborators}
    (staff user : Staff) (id : Z) (w : World) :
  let key := {| sc_staffId := staff_id user; sc_conversationId := id |} in
  (getConversationById staff id w = None ->
   addToConversation staff id user w = (Thrown Forbidden, w))
  /\ (forall c, getConversationById staff id w = Some c ->
                includes (allowedConversationTypes user) (c_type c) = false ->
                addToConversation staff id user w = (Thrown Forbidden, w))
  /\ (forall c, getConversationById staff id w = Some c ->
                includes (allowedConversationTypes user) (c_type c) = true ->
                exists w',
                  addToConversation staff id user w = (Ok key, w')
                  /\ staffConversations w'
                     = (if existsb (Store.staffConversation_has_key key)
                             (staffConversations w)
                        then staffConversations w
                        else staffConversations w ++ [key])
                  /\ conversations w' = conversations w
                  /\ messages w' = messages w
                  /\ outbox w' = outbox w
                  /\ ((joined_rows key w <= 1)%nat -> joined_rows key w' = 1%nat))
  /\ ((joined_rows key w <= 1)%nat ->
      forall r1 w1 r2 w2,
        addToConversation staff id user w = (Ok r1, w1) ->
        addToConversation staff id user w1 = (r2, w2) ->
        joined_rows key w1 = 1%nat /\ joined_rows key w2 = 1%nat)
  /\ joinConversation staff id = addToConversation staff id staff
  /\ (id <> 0 -> rules_truthy staff ->
      Js.has (getConversationRules staff) "id" = false ->
      (forall c, In c (conversations w) -> c_id c = id -> in_scope staff w c = false) ->
      addToConversation staff id user w = (Thrown Forbidden, w)).
Proof.
  cbv zeta. split; [|split; [|split; [|split; [|split]]]].
  6: { intros Hid Ht Hk Hout.
       rewrite addToConversation_eq.
       now rewrite (getConversationById_out_of_scope staff w id Hid Ht Hk Hout). }
  - intros Hnone. now rewrite addToConversation_eq, Hnone.
  - intros c Hc Hno. now rewrite addToConversation_eq, Hc, Hno.
  - intros c Hc Hyes. rewrite addToConversation_eq, Hc, Hyes.
    eexists. split; [reflexivity|]. cbn. repeat split.
    apply joined_rows_after.
  - intros Hle r1 w1 r2 w2 H1 H2.
    assert (E1 : joined_rows {| sc_staffId := staff_id user; sc_conversationId := id |} w1
                 = 1%nat).
    { rewrite addToConversation_eq in H1.
      destruct (getConversationById staff id w) as [c|]; [|discriminate].
      destruct (includes _ _); [|discriminate].
      injection H1 as _ <-. now apply joined_rows_after. }
    split; [exact E1|]. eapply joined_rows_kept; eauto.
  - reflexivity.
Qed.

Lemma addToConversation_checks_then_joins_witness :
  exists w',
    addToConversation Demo.admin 7 Demo.admin Demo.world
    = (Ok {| sc_staffId := 1; sc_conversationId := 7 |}, w')
    /\ joined_rows {| sc_staffId := 1; sc_conversationId := 7 |} w' = 1%nat.
Proof.
  destruct (addToConversation_checks_then_joins Demo.admin Demo.admin 7 Demo.world)
    as (_ & _ & Hjoin & _).
  destruct (Hjoin (Demo.conversation 7 (Some "ext-99") "CUSTOMER" 20)
              eq_refl eq_refl) as (w' & Hadd & _ & _ & _ & _ & Hone).
  exists w'. split; [exact Hadd|]. apply Hone. cbn. lia.
Defined.

(** ** Sending *)

Section Sending.

Context `{Collaborators} (staff : Staff).

Lemma truthy_nonempty (s : string) : s <> "" -> truthy (VStr s) = true.
Proof. cbn. now destruct (String.eqb_spec s ""). Qed.

Lemma patch_message_nothing (m : Message) :
  Store.patch_message no_message_update m = m.
Proof. now destruct m. Qed.

(** The message upsert under a provider identity: the row that carries
    the identity, untouched, or else a new row. *)
Lemma message_upsert_noop (mid : string) (data : UnsavedMessage) (w : World) :
  um_sunshineMessageId data = Some mid ->
  Store.message_upsert (Some mid) no_message_update data w
  = match List.find (Store.message_has_key mid) (messages w) with
    | Some existing => (Ok existing, with_messages w (messages w) (messageSeq w))
    | None => (Ok (Store.new_message w data),
               with_messages w (messages w ++ [Store.new_message w data])
                 (messageSeq w + 1))
    end.
Proof.
  intros Hmid. unfold Store.message_upsert.
  destruct (List.find _ (messages w)) as [old|] eqn:Hf.
  - unfold Store.message_write. cbn.
    now rewrite patch_message_nothing, replace_first_found.
  - unfold Store.message_create, Store.message_key_taken. rewrite Hmid.
    cbv beta iota.
    match goal with
    | |- context [existsb ?f ?rows] => assert (E : existsb f rows = false)
    end.
    { apply not_true_is_false. intros Hex.
      apply existsb_exists in Hex as (m & Hin & Hm).
      apply andb_true_iff in Hm as [_ Hm].
      now rewrite (List.find_none _ _ Hf m Hin) in Hm. }
    now rewrite E.
Qed.

Lemma message_has_key_inj (k k' : string) (m : Message) :
  Store.message_has_key k m = true -> Store.message_has_key k' m = true -> k = k'.
Proof.
  unfold Store.message_has_key. intros Hk Hk'.
  apply bool_decide_eq_true in Hk, Hk'. congruence.
Qed.

End Sending.

(** C8: on a CUSTOMER conversation with an external identity, with a
    configuration bound and a sender who may join, a provider call that
    throws makes [sendMessage] throw that same error, and the Message table
    is as it was before the call. *)
Theorem sendMessage_provider_failure `{Collaborators}
    (staff : Staff) (id : Z) (content : value) (w : World) (c : Conversation)
    (cfg : GoodChatConfig) (sid : string) (e : Error) :
  getConversationById staff id w = Some c ->
  includes (allowedConversationTypes staff) (c_type c) = true ->
  c_type c = CUSTOMER ->
  config = Some cfg ->
  c_sunshineConversationId c = Some sid ->
  sid <> "" ->
  postMessage (outbox w)
    {| rq_appId := smoochAppId cfg; rq_conversationId := sid;
       rq_body := provider_body cfg content |} = Thrown e ->
  exists w',
    sendMessage staff id content w = (Thrown e, w')
    /\ messages w' = messages w
    /\ outbox w' = outbox w ++ [{| rq_appId := smoochAppId cfg;
                                   rq_conversationId := sid;
                                   rq_body := provider_body cfg content |}].
Proof.
  intros Hc Hinc Hty Hcfg Hsid Hne Hpost.
  unfold sendMessage, bind, read. rewrite Hc.
  unfold joinConversation. rewrite addToConversation_eq, Hc, Hinc.
  rewrite Hty, Hcfg, Hsid, (truthy_nonempty _ Hne).
  unfold sunshine_postMessage. cbn. rewrite Hpost.
  eexists. repeat split.
Qed.

Lemma sendMessage_provider_failure_witness :
  exists w',
    sendMessage Demo.admin 8 (VObj [("type", VStr "text"); ("text", VStr "hello")])
      Demo.world = (Thrown (ProviderFailure "ECONNRESET"), w')
    /\ messages w' = messages Demo.world.
Proof.
  assert (Hc : getConversationById Demo.admin 8 Demo.world
               = Some (Demo.conversation 8 (Some "ext-down") "CUSTOMER" 20))
    by reflexivity.
  destruct (sendMessage_provider_failure Demo.admin 8
              (VObj [("type", VStr "text"); ("text", VStr "hello")]) Demo.world
              (Demo.conversation 8 (Some "ext-down") "CUSTOMER" 20)
              {| appName := "GoodChat"; smoochAppId := "app-1" |} "ext-down"
              (ProviderFailure "ECONNRESET") Hc eq_refl eq_refl eq_refl eq_refl)
    as (w' & Hsend & Hmsgs & _).
  - discriminate.
  - reflexivity.
  - exists w'. split; [exact Hsend | exact Hmsgs].
Defined.

(** C1: when [sendMessage] reaches its persistence step with a message
    identity assigned by the provider, it upserts on that identity with an
    empty update: if a Message row already carries the identity, that row is
    returned as it is and the Message table is unchanged; otherwise a row is
    appended that carries the conversation id, the content, the STAFF author
    type, the sender's id and the identity.  Either way the identity then has
    a row, and a table with at most one row per provider identity is still
    so, with exactly one row for this identity. *)
Theorem sendMessage_upserts_on_provider_identity `{Collaborators}
    (staff : Staff) (id : Z) (content : value) (w : World) (c : Conversation)
    (cfg : GoodChatConfig) (sid : string) (pm : ProviderMessage)
    (others : list ProviderMessage) :
  getConversationById staff id w = Some c ->
  includes (allowedConversationTypes staff) (c_type c) = true ->
  c_type c = CUSTOMER ->
  config = Some cfg ->
  c_sunshineConversationId c = Some sid ->
  sid <> "" ->
  postMessage (outbox w)
    {| rq_appId := smoochAppId cfg; rq_conversationId := sid;
       rq_body := provider_body cfg content |} = Ok (pm :: others) ->
  exists row w',
    sendMessage staff id content w = (Ok row, w')
    /\ match List.find (Store.message_has_key (pm_id pm)) (messages w) with
       | Some existing => row = existing /\ messages w' = messages w
       | None =>
           messages w' = messages w ++ [row]
           /\ m_id row = messageSeq w
           /\ m_conversationId row = id
           /\ m_content row = content
           /\ m_sunshineMessageId row = Some (pm_id pm)
           /\ m_authorType row = STAFF
           /\ m_authorId row = staff_id staff
           /\ m_metadata row = VObj []
       end
    /\ In row (messages w')
    /\ m_sunshineMessageId row = Some (pm_id pm)
    /\ ((forall k, (rows_with_message_id k w <= 1)%nat) ->
        rows_with_message_id (pm_id pm) w' = 1%nat
        /\ forall k, (rows_with_message_id k w' <= 1)%nat).
Proof.
  intros Hc Hinc Hty Hcfg Hsid Hne Hpost.
  unfold sendMessage, bind, read. rewrite Hc.
  unfold joinConversation. rewrite addToConversation_eq, Hc, Hinc.
  rewrite Hty, Hcfg, Hsid, (truthy_nonempty _ Hne).
  unfold sunshine_postMessage. cbn -[Store.message_upsert]. rewrite Hpost.
  cbn -[Store.message_upsert].
  rewrite message_upsert_noop by reflexivity. cbn.
  destruct (List.find (Store.message_has_key (pm_id pm)) (messages w))
    as [existing|] eqn:Hf.
  - pose proof (List.find_some _ _ Hf) as [Hin Hkey].
    exists existing. eexists. split; [reflexivity|]. cbn.
    split; [now split|]. split; [exact Hin|].
    split; [now apply bool_decide_eq_true in Hkey|].
    intros Huniq. split; [|exact Huniq].
    unfold rows_with_message_id in *. cbn.
    specialize (Huniq (pm_id pm)).
    assert (Hex : existsb (Store.message_has_key (pm_id pm)) (messages w) = true)
      by (rewrite existsb_find, Hf; reflexivity).
    apply filter_some in Hex. lia.
  - eexists. eexists. split; [reflexivity|]. cbn.
    split; [repeat split|]. split; [apply in_or_app; right; now left|].
    split; [reflexivity|].
    intros Huniq.
    assert (Hex : existsb (Store.message_has_key (pm_id pm)) (messages w) = false)
      by (rewrite existsb_find, Hf; reflexivity).
    unfold rows_with_message_id in *. cbn.
    split.
    + rewrite length_filter_app, (filter_none _ _ Hex). cbn.
      unfold Store.message_has_key. cbn. now rewrite bool_decide_eq_true_2.
    + intros k. rewrite length_filter_app. cbn.
      unfold Store.message_has_key at 2. cbn.
      destruct (bool_decide (Some (pm_id pm) = Some k)) eqn:Ek; cbn.
      * apply bool_decide_eq_true in Ek. injection Ek as <-.
        rewrite (filter_none _ _ Hex). cbn. lia.
      * specialize (Huniq k). lia.
Qed.

Lemma sendMessage_upserts_on_provider_identity_witness :
  (exists row w',
      sendMessage Demo.admin 7 (VObj [("type", VStr "text"); ("text", VStr "hello")])
        Demo.world = (Ok row, w')
      /\ messages w' = messages Demo.world ++ [row]
      /\ m_sunshineMessageId row = Some "prov-1")
  /\ (exists w',
         sendMessage Demo.admin 7 (VObj [("type", VStr "text"); ("text", VStr "hello")])
           Demo.world_after_webhook = (Ok (Demo.message 3 7 (Some "prov-1") 50), w')
         /\ messages w' = messages Demo.world_after_webhook).
Proof.
  split.
  - assert (Hc : getConversationById Demo.admin 7 Demo.world
                 = Some (Demo.conversation 7 (Some "ext-99") "CUSTOMER" 20))
      by reflexivity.
    destruct (sendMessage_upserts_on_provider_identity Demo.admin 7
                (VObj [("type", VStr "text"); ("text", VStr "hello")]) Demo.world
                (Demo.conversation 7 (Some "ext-99") "CUSTOMER" 20)
                {| appName := "GoodChat"; smoochAppId := "app-1" |} "ext-99"
                {| pm_id := "prov-1" |} [] Hc eq_refl eq_refl eq_refl eq_refl)
      as (row & w' & Hsend & Hcase & _ & Hid & _).
    + discriminate.
    + reflexivity.
    + exists row, w'. split; [exact Hsend|]. split; [apply Hcase | exact Hid].
  - assert (Hc : getConversationById Demo.admin 7 Demo.world_after_webhook
                 = Some (Demo.conversation 7 (Some "ext-99") "CUSTOMER" 20))
      by reflexivity.
    destruct (sendMessage_upserts_on_provider_identity Demo.admin 7
                (VObj [("type", VStr "text"); ("text", VStr "hello")])
                Demo.world_after_webhook
                (Demo.conversation 7 (Some "ext-99") "CUSTOMER" 20)
                {| appName := "GoodChat"; smoochAppId := "app-1" |} "ext-99"
                {| pm_id := "prov-1" |} [] Hc eq_refl eq_refl eq_refl eq_refl)
      as (row & w' & Hsend & Hcase & _).
    + discriminate.
    + reflexivity.
    + cbn in Hcase. destruct Hcase as [-> Hmsgs].
      exists w'. split; [exact Hsend | exact Hmsgs].
Defined.

(** ** Reconciling a conversation *)

Section Reconcile.

Implicit Types (w : World) (data : UnsavedConversation) (old : Conversation).

Lemma find_after_replace (sel : Conversation -> bool) (rows : list Conversation)
    old (row : Conversation) :
  NoDup (map c_id rows) ->
  List.find sel rows = Some old ->
  c_id row = c_id old ->
  List.find (fun c => c_id c =? c_id old) (Store.replace_first sel row rows)
  = Some row.
Proof.
  intros Hnd Hf Hid. induction rows as [|a rows IH]; cbn in *; [discriminate|].
  inversion Hnd as [|? ? Hnotin Hnd']; subst.
  destruct (sel a) eqn:Ea.
  - injection Hf as ->. cbn. now rewrite Hid, Z.eqb_refl.
  - cbn. destruct (Z.eqb_spec (c_id a) (c_id old)) as [E|E].
    + exfalso. apply Hnotin. rewrite E.
      apply list_elem_of_In, in_map. now apply (List.find_some _ _ Hf).
    + now apply IH.
Qed.

Lemma replace_twice (sel : Conversation -> bool) (rows : list Conversation)
    old (row row' : Conversation) :
  NoDup (map c_id rows) ->
  List.find sel rows = Some old ->
  c_id row = c_id old ->
  Store.replace_first (fun c => c_id c =? c_id old) row'
    (Store.replace_first sel row rows)
  = Store.replace_first sel row' rows.
Proof.
  intros Hnd Hf Hid. induction rows as [|a rows IH]; cbn in *; [discriminate|].
  inversion Hnd as [|? ? Hnotin Hnd']; subst.
  destruct (sel a) eqn:Ea.
  - cbn. now rewrite Hid, Z.eqb_refl.
  - cbn. destruct (Z.eqb_spec (c_id a) (c_id old)) as [E|E].
    + exfalso. apply Hnotin. rewrite E.
      apply list_elem_of_In, in_map. now apply (List.find_some _ _ Hf).
    + now rewrite IH.
Qed.

(** What the upsert's update branch writes: the candidate's external
    identity and type. *)
Lemma patch_existing old data (t : Z) :
  Store.patch_conversation
    (Reconciler.omit (Reconciler.all_of data)
       ["metadata"; "externalId"; "source"; "customerId"]) t old
  = {| c_id := c_id old;
       c_sunshineConversationId := uc_sunshineConversationId data;
       c_customerId := c_customerId old;
       c_source := c_source old;
       c_type := uc_type data;
       c_metadata := c_metadata old;
       c_createdAt := c_createdAt old;
       c_updatedAt := t |}.
Proof. reflexivity. Qed.

Lemma omit_key data :
  cp_sunshineConversationId
    (Reconciler.omit (Reconciler.all_of data)
       ["metadata"; "externalId"; "source"; "customerId"])
  = Some (uc_sunshineConversationId data).
Proof. reflexivity. Qed.

(** The reconciler on an external identity that a row carries. *)
Lemma upsertConversation_existing (sid : string) data w old :
  NoDup (map c_id (conversations w)) ->
  List.find (Store.conversation_has_key sid) (conversations w) = Some old ->
  Store.conversation_key_taken (conversations w) (Some (c_id old))
    (uc_sunshineConversationId data) = false ->
  exists t w',
    Reconciler.upsertConversation sid data w = (Ok (reconciled old data t), w')
    /\ conversations w'
       = Store.replace_first (Store.conversation_has_key sid)
           (reconciled old data t) (conversations w)
    /\ conversationSeq w' = conversationSeq w.
Proof.
  intros Hnd Hf Hfree.
  unfold Reconciler.upsertConversation, bind, Store.conversation_upsert.
  rewrite Hf. unfold Store.conversation_write at 1. cbv zeta.
  rewrite omit_key, patch_existing, Hfree.
  cbn -[Store.conversation_update].
  unfold reconciled, fill_once_customerId, fill_once_source,
    Reconciler.truthy_string.
  destruct (c_customerId old) as [oc|] eqn:Ec,
           (uc_customerId data) as [dc|] eqn:Ed,
           (c_source old) as [os|] eqn:Es,
           (uc_source data) as [ds|] eqn:Eds;
    cbn -[Store.conversation_update];
    try destruct (String.eqb os "") eqn:Eos;
    cbn -[Store.conversation_update].
  all: try (do 2 eexists; split; [reflexivity|]; split; reflexivity).
  all: unfold Store.conversation_update; cbn [conversations with_conversations].
  all: erewrite find_after_replace by (eassumption || reflexivity).
  all: unfold Store.conversation_write; cbn.
  all: rewrite ?Ec, ?Es; cbn.
  all: do 2 eexists; split; [reflexivity|]; split; [|reflexivity].
  all: now apply replace_twice.
Qed.

Lemma key_not_taken_when_absent (sid : string) (rows : list Conversation) :
  List.find (Store.conversation_has_key sid) rows = None ->
  Store.conversation_key_taken rows None (Some sid) = false.
Proof.
  intros Hf. apply not_true_is_false. intros Hex.
  apply existsb_exists in Hex as (c & Hin & Hc).
  apply andb_true_iff in Hc as [_ Hc].
  now rewrite (List.find_none _ _ Hf c Hin) in Hc.
Qed.

Lemma find_fresh_last (rows : list Conversation) (seq : Z) (row : Conversation) :
  Forall (fun c => c_id c < seq) rows -> c_id row = seq ->
  List.find (fun c => c_id c =? seq) (rows ++ [row]) = Some row.
Proof.
  intros Hlt Hid. induction Hlt as [|a rows Ha _ IH]; cbn.
  - now rewrite Hid, Z.eqb_refl.
  - destruct (Z.eqb_spec (c_id a) seq); [lia | exact IH].
Qed.

Lemma replace_fresh_last (rows : list Conversation) (seq : Z)
    (row row' : Conversation) :
  Forall (fun c => c_id c < seq) rows -> c_id row = seq ->
  Store.replace_first (fun c => c_id c =? seq) row' (rows ++ [row])
  = rows ++ [row'].
Proof.
  intros Hlt Hid. induction Hlt as [|a rows Ha _ IH]; cbn.
  - now rewrite Hid, Z.eqb_refl.
  - destruct (Z.eqb_spec (c_id a) seq); [lia | now rewrite IH].
Qed.

(** The reconciler on an external identity that no row carries. *)
Lemma upsertConversation_fresh (sid : string) data w :
  List.find (Store.conversation_has_key sid) (conversations w) = None ->
  Forall (fun c => c_id c < conversationSeq w) (conversations w) ->
  exists t' w',
    Reconciler.upsertConversation sid data w
    = (Ok (created sid data (conversationSeq w) (now w) t'), w')
    /\ conversations w'
       = conversations w ++ [created sid data (conversationSeq w) (now w) t']
    /\ conversationSeq w' = conversationSeq w + 1.
Proof.
  intros Hf Hseq.
  unfold Reconciler.upsertConversation, bind, Store.conversation_upsert.
  rewrite Hf. unfold Store.conversation_insert.
  cbn [uc_sunshineConversationId]. rewrite (key_not_taken_when_absent _ _ Hf).
  unfold created, Reconciler.truthy_string.
  destruct (uc_customerId data) as [dc|] eqn:Ed,
           (uc_source data) as [ds|] eqn:Eds;
    cbn -[Store.conversation_update];
    try destruct (String.eqb ds "") eqn:Eos;
    cbn -[Store.conversation_update].
  all: try (do 2 eexists; split; [reflexivity|]; split; reflexivity).
  all: unfold Store.conversation_update; cbn [conversations with_conversations].
  all: erewrite find_fresh_last by (eassumption || reflexivity).
  all: unfold Store.conversation_write; cbn.
  all: do 2 eexists; split; [reflexivity|]; split; [|reflexivity].
  all: now apply replace_fresh_last.
Qed.

Lemma filter_le_1_unique {A} (p : A -> bool) (rows : list A) (a b : A) :
  (length (List.filter p rows) <= 1)%nat ->
  In a rows -> p a = true -> In b rows -> p b = true -> a = b.
Proof.
  intros Hle Ha Hpa Hb Hpb.
  assert (Ha' : In a (List.filter p rows)) by (apply List.filter_In; auto).
  assert (Hb' : In b (List.filter p rows)) by (apply List.filter_In; auto).
  destruct (List.filter p rows) as [|x [|y l]]; cbn in *; try lia; try tauto.
  destruct Ha' as [<-|[]], Hb' as [<-|[]]. reflexivity.
Qed.

(** Under the unique key, the row that carries an identity may be
    rewritten with that identity. *)
Lemma key_not_taken_by_others (sid : string) w old :
  (rows_with_conversation_key sid w <= 1)%nat ->
  List.find (Store.conversation_has_key sid) (conversations w) = Some old ->
  Store.conversation_key_taken (conversations w) (Some (c_id old)) (Some sid)
  = false.
Proof.
  intros Hle Hf. apply not_true_is_false. intros Hex.
  apply existsb_exists in Hex as (c & Hin & Hc).
  apply andb_true_iff in Hc as [Hother Hkey].
  pose proof (List.find_some _ _ Hf) as [Hin' Hkey'].
  assert (c = old) by (eapply filter_le_1_unique; eauto).
  subst c. apply negb_true_iff, bool_decide_eq_false in Hother. congruence.
Qed.

Section Replace.

Context (sel : Conversation -> bool) (rows : list Conversation)
        (old row : Conversation).
Hypothesis Hfound : List.find sel rows = Some old.

Lemma map_id_replace :
  c_id row = c_id old ->
  map c_id (Store.replace_first sel row rows) = map c_id rows.
Proof.
  intros Hid. induction rows as [|a l IH]; cbn in *; [discriminate|].
  destruct (sel a).
  - injection Hfound as ->. cbn. now rewrite Hid.
  - cbn. now rewrite IH.
Qed.

Lemma Forall_replace (P : Conversation -> Prop) :
  Forall P rows -> P row -> Forall P (Store.replace_first sel row rows).
Proof.
  intros Hall Hrow. clear Hfound.
  induction Hall as [|a l Ha Hl IH]; cbn; [constructor|].
  destruct (sel a); constructor; auto.
Qed.

Lemma length_filter_replace (p : Conversation -> bool) :
  p row = p old ->
  length (List.filter p (Store.replace_first sel row rows))
  = length (List.filter p rows).
Proof.
  intros Hp. induction rows as [|a l IH]; cbn in *; [discriminate|].
  destruct (sel a).
  - injection Hfound as ->. cbn. rewrite Hp. now destruct (p old).
  - cbn. destruct (p a); cbn; now rewrite IH.
Qed.

Lemma find_replace :
  sel row = true -> List.find sel (Store.replace_first sel row rows) = Some row.
Proof.
  intros Hrow. induction rows as [|a l IH]; cbn in *; [discriminate|].
  destruct (sel a) eqn:Ea; cbn.
  - now rewrite Hrow.
  - rewrite Ea. now apply IH.
Qed.

Lemma length_replace :
  length (Store.replace_first sel row rows) = length rows.
Proof.
  clear Hfound. induction rows as [|a l IH]; cbn; [reflexivity|].
  destruct (sel a); cbn; now rewrite ?IH.
Qed.

End Replace.

Lemma has_key_sid (sid : string) (c : Conversation) :
  Store.conversation_has_key sid c = true <-> c_sunshineConversationId c = Some sid.
Proof. unfold Store.conversation_has_key. apply bool_decide_eq_true. Qed.

Lemma settled_reconciled (sid : string) data old (t : Z) :
  uc_sunshineConversationId data = Some sid ->
  settled sid data (reconciled old data t).
Proof.
  intros Hsid. unfold settled, reconciled, fill_once_customerId, fill_once_source.
  cbn. repeat split; auto.
  - destruct (c_customerId old); [discriminate | auto].
  - destruct (Reconciler.truthy_string (c_source old)) eqn:Eo.
    + intros Hf. rewrite Hf in Eo. discriminate.
    + intros _ ->. reflexivity.
Qed.

Lemma settled_created (sid : string) data (id t t' : Z) :
  settled sid data (created sid data id t t').
Proof. unfold settled, created. cbn. repeat split; auto. Qed.

(** A settled row comes out of a reconciliation with its columns. *)
Lemma reconciled_settled (sid : string) data (r : Conversation) (t : Z) :
  settled sid data r -> uc_sunshineConversationId data = Some sid ->
  same_columns r (reconciled r data t).
Proof.
  intros (Hs & Hty & Hc & Hsrc) Hsid.
  unfold same_columns, reconciled, fill_once_customerId, fill_once_source. cbn.
  repeat split; auto; try congruence.
  - destruct (c_customerId r); [reflexivity | symmetry; auto].
  - destruct (Reconciler.truthy_string (c_source r)) eqn:Et; [reflexivity|].
    destruct (Reconciler.isString (uc_source data)) eqn:Ei; auto.
Qed.

(** One reconciliation with a candidate that carries the identity it is
    keyed on: it succeeds, keeps the store's constraints, and leaves the
    identity on the row it returns. *)
Lemma upsertConversation_step (sid : string) data w :
  conversations_wf w ->
  uc_sunshineConversationId data = Some sid ->
  exists r w',
    Reconciler.upsertConversation sid data w = (Ok r, w')
    /\ conversations_wf w'
    /\ List.find (Store.conversation_has_key sid) (conversations w') = Some r
    /\ settled sid data r
    /\ match List.find (Store.conversation_has_key sid) (conversations w) with
       | Some old =>
           (exists t, r = reconciled old data t)
           /\ conversations w'
              = Store.replace_first (Store.conversation_has_key sid) r
                  (conversations w)
       | None => conversations w' = conversations w ++ [r]
       end.
Proof.
  intros [Hids Hseq Hkeys] Hsid.
  destruct (List.find (Store.conversation_has_key sid) (conversations w))
    as [old|] eqn:Hf.
  - pose proof (List.find_some _ _ Hf) as [Hin Hold].
    apply has_key_sid in Hold.
    destruct (upsertConversation_existing sid data w old Hids Hf)
      as (t & w' & Hup & Hconv & Hseq').
    { rewrite Hsid. apply key_not_taken_by_others; auto. }
    exists (reconciled old data t), w'. split; [exact Hup|].
    assert (Hrow : Store.conversation_has_key sid (reconciled old data t) = true)
      by (apply has_key_sid; exact Hsid).
    split; [|split; [|split; [|split]]].
    + constructor.
      * rewrite Hconv. erewrite map_id_replace; eauto.
      * rewrite Hconv, Hseq'. apply Forall_replace; [exact Hseq|].
        rewrite List.Forall_forall in Hseq. exact (Hseq old Hin).
      * intros k. unfold rows_with_conversation_key. rewrite Hconv.
        erewrite length_filter_replace; [apply Hkeys | exact Hf |].
        unfold Store.conversation_has_key. cbn. now rewrite Hsid, Hold.
    + rewrite Hconv. eapply find_replace; eauto.
    + now apply settled_reconciled.
    + now exists t.
    + exact Hconv.
  - destruct (upsertConversation_fresh sid data w Hf Hseq)
      as (t' & w' & Hup & Hconv & Hseq').
    exists (created sid data (conversationSeq w) (now w) t'), w'.
    split; [exact Hup|].
    assert (Hnone : existsb (Store.conversation_has_key sid) (conversations w) = false)
      by (rewrite existsb_find, Hf; reflexivity).
    split; [|split; [|split]].
    + constructor.
      * rewrite Hconv, map_app. cbn. apply NoDup_app. split; [exact Hids|].
        split; [|apply NoDup_singleton].
        intros x Hx Hx'. apply list_elem_of_singleton in Hx'. subst x.
        apply list_elem_of_In, in_map_iff in Hx as (c & Hc & Hin).
        rewrite List.Forall_forall in Hseq. specialize (Hseq c Hin). lia.
      * rewrite Hconv, Hseq'. apply Forall_app. split.
        -- eapply List.Forall_impl; [|exact Hseq]. cbn. intros; lia.
        -- constructor; [cbn; lia | constructor].
      * intros k. unfold rows_with_conversation_key. rewrite Hconv.
        rewrite length_filter_app. cbn.
        destruct (Store.conversation_has_key k _) eqn:Ek; cbn.
        -- apply has_key_sid in Ek. cbn in Ek. injection Ek as <-.
           rewrite (filter_none _ _ Hnone). cbn. lia.
        -- specialize (Hkeys k). unfold rows_with_conversation_key in Hkeys. lia.
    + rewrite Hconv, (find_app_none _ _ _ Hf). cbn.
      unfold Store.conversation_has_key. cbn. now rewrite bool_decide_eq_true_2.
    + apply settled_created.
    + exact Hconv.
Qed.

End Reconcile.

Lemma upsertConversation_refused (sid : string) (data : UnsavedConversation)
    (w : World) (old : Conversation) :
  List.find (Store.conversation_has_key sid) (conversations w) = Some old ->
  Store.conversation_key_taken (conversations w) (Some (c_id old))
    (uc_sunshineConversationId data) = true ->
  Reconciler.upsertConversation sid data w = (Thrown UniqueConstraintViolation, w).
Proof.
  intros Hf Htaken.
  unfold Reconciler.upsertConversation, bind, Store.conversation_upsert.
  rewrite Hf. unfold Store.conversation_write. cbv zeta.
  now rewrite omit_key, Htaken.
Qed.

(** A fill-once column that is set survives any reconciliation. *)
Lemma fill_once_kept (sid : string) (data : UnsavedConversation) (w w' : World)
    (old r : Conversation) :
  NoDup (map c_id (conversations w)) ->
  List.find (Store.conversation_has_key sid) (conversations w) = Some old ->
  Reconciler.upsertConversation sid data w = (Ok r, w') ->
  (forall x, c_customerId old = Some x -> c_customerId r = Some x)
  /\ (forall s, c_source old = Some s -> s <> "" -> c_source r = Some s).
Proof.
  intros Hids Hf Hup.
  destruct (Store.conversation_key_taken (conversations w) (Some (c_id old))
              (uc_sunshineConversationId data)) eqn:Htaken.
  - rewrite (upsertConversation_refused _ _ _ _ Hf Htaken) in Hup. discriminate.
  - destruct (upsertConversation_existing sid data w old Hids Hf Htaken)
      as (t & w'' & Hup' & _).
    rewrite Hup' in Hup. injection Hup as <- _.
    unfold reconciled, fill_once_customerId, fill_once_source. cbn. split.
    + intros x ->. reflexivity.
    + intros s -> Hs. cbn.
      destruct (String.eqb_spec s ""); [contradiction | reflexivity].
Qed.

Lemma demo_world_wf : conversations_wf Demo.world.
Proof.
  constructor.
  - apply (bool_decide_unpack _). vm_compute. exact I.
  - cbn. repeat constructor.
  - intros sid. unfold rows_with_conversation_key, Store.conversation_has_key. cbn.
    repeat case_bool_decide; cbn; try lia; congruence.
Qed.

Lemma demo_empty_world_wf : conversations_wf Demo.empty_world.
Proof. constructor; cbn; [constructor | constructor | intros; lia]. Qed.

(** C3, as stated, fails: the update branch of the upsert writes the
    candidate's type onto the existing row. *)
Lemma upsertConversation_overwrites_type :
  let old := Demo.conversation 7 (Some "ext-99") "CUSTOMER" 20 in
  List.find (Store.conversation_has_key "ext-99") (conversations Demo.world) = Some old
  /\ exists row w',
       Reconciler.upsertConversation "ext-99" Demo.candidate_private Demo.world
       = (Ok row, w')
       /\ In row (conversations w')
       /\ c_id row = c_id old
       /\ c_type row = "PRIVATE"
       /\ c_type row <> c_type old.
Proof.
  cbv zeta. split; [reflexivity|].
  eexists. eexists. split; [vm_compute; reflexivity|].
  split; [cbn; right; left; reflexivity|].
  split; [reflexivity|]. split; [reflexivity | discriminate].
Qed.

(** C3 (amended): when the external identity matches an existing row and
    the candidate carries that identity, the reconciler rewrites that row
    only: its id, external identity, metadata and creation time stay, its
    type becomes the candidate's, its customer reference changes only from
    null to a non-null candidate value, and its source changes only from
    null or the empty string to the candidate's string. *)
Theorem upsertConversation_on_existing_row (sid : string)
    (data : UnsavedConversation) (w : World) (old : Conversation) :
  conversations_wf w ->
  List.find (Store.conversation_has_key sid) (conversations w) = Some old ->
  uc_sunshineConversationId data = Some sid ->
  exists row w',
    Reconciler.upsertConversation sid data w = (Ok row, w')
    /\ conversations w'
       = Store.replace_first (Store.conversation_has_key sid) row (conversations w)
    /\ c_id row = c_id old
    /\ c_sunshineConversationId row = c_sunshineConversationId old
    /\ c_metadata row = c_metadata old
    /\ c_createdAt row = c_createdAt old
    /\ c_type row = uc_type data
    /\ c_customerId row = fill_once_customerId (c_customerId old) (uc_customerId data)
    /\ c_source row = fill_once_source (c_source old) (uc_source data)
    /\ (c_customerId row <> c_customerId old ->
        c_customerId old = None /\ uc_customerId data <> None
        /\ c_customerId row = uc_customerId data)
    /\ (c_source row <> c_source old ->
        Reconciler.truthy_string (c_source old) = false
        /\ Reconciler.isString (uc_source data) = true
        /\ c_source row = uc_source data).
Proof.
  intros Hwf Hf Hsid.
  destruct (upsertConversation_step sid data w Hwf Hsid)
    as (r & w' & Hup & _ & _ & _ & Hcase).
  rewrite Hf in Hcase. destruct Hcase as [[t ->] Hconv].
  pose proof (List.find_some _ _ Hf) as [_ Hold]. apply has_key_sid in Hold.
  exists (reconciled old data t), w'. split; [exact Hup|]. split; [exact Hconv|].
  unfold reconciled, fill_once_customerId, fill_once_source. cbn.
  repeat split; try congruence.
  - destruct (c_customerId old); [congruence | reflexivity].
  - destruct (c_customerId old); congruence.
  - destruct (c_customerId old); [congruence | reflexivity].
  - destruct (Reconciler.truthy_string (c_source old)); [congruence | reflexivity].
  - destruct (Reconciler.truthy_string (c_source old)); [congruence|].
    destruct (Reconciler.isString (uc_source data)); [reflexivity | congruence].
  - destruct (Reconciler.truthy_string (c_source old)); [congruence|].
    destruct (Reconciler.isString (uc_source data)); [reflexivity | congruence].
Qed.

Lemma upsertConversation_on_existing_row_witness :
  exists row w',
    Reconciler.upsertConversation "ext-99" Demo.candidate Demo.world = (Ok row, w')
    /\ c_id row = 7
    /\ c_metadata row = VObj []
    /\ c_customerId row = Some 3
    /\ c_source row = Some "whatsapp".
Proof.
  destruct (upsertConversation_on_existing_row "ext-99" Demo.candidate Demo.world
              (Demo.conversation 7 (Some "ext-99") "CUSTOMER" 20)
              demo_world_wf eq_refl eq_refl)
    as (row & w' & Hup & _ & Hid & _ & Hmeta & _ & _ & Hcust & Hsrc & _).
  exists row, w'. repeat split; assumption.
Defined.

(** C4: with a candidate whose own external identity is null, two calls of
    the reconciler under one identity do not leave one row for it.  The
    update branch of the upsert writes the candidate's identity over the
    row's, where the create branch pins it to the key.  On a store that holds
    conversation 7 under ["ext-99"], the first call nulls the identity of row
    7 and the second, finding no row under ["ext-99"], creates another: the
    two calls return two different rows and the table has grown.  From the
    empty store, the first call creates the row and the second nulls its
    identity, so that no row carries ["ext-1"] any more. *)
Theorem upsertConversation_twice_loses_identity :
  (exists r1 w1 r2 w2,
      Reconciler.upsertConversation "ext-99" Demo.candidate_without_identity
        Demo.world = (Ok r1, w1)
      /\ Reconciler.upsertConversation "ext-99" Demo.candidate_without_identity w1
         = (Ok r2, w2)
      /\ rows_with_conversation_key "ext-99" Demo.world = 1%nat
      /\ c_id r1 = 7
      /\ c_sunshineConversationId r1 = None
      /\ rows_with_conversation_key "ext-99" w1 = 0%nat
      /\ c_id r2 <> c_id r1
      /\ existsb (fun c => c_id c =? c_id r2) (conversations Demo.world) = false
      /\ length (conversations w2) = S (length (conversations Demo.world)))
  /\ (exists r1 w1 r2 w2,
         Reconciler.upsertConversation "ext-1" Demo.candidate_without_identity
           Demo.empty_world = (Ok r1, w1)
         /\ Reconciler.upsertConversation "ext-1" Demo.candidate_without_identity w1
            = (Ok r2, w2)
         /\ rows_with_conversation_key "ext-1" w1 = 1%nat
         /\ c_id r2 = c_id r1
         /\ c_sunshineConversationId r2 = None
         /\ rows_with_conversation_key "ext-1" w2 = 0%nat).
Proof.
  split.
  - do 4 eexists. split; [vm_compute; reflexivity|].
    split; [vm_compute; reflexivity|].
    split; [reflexivity|]. split; [reflexivity|]. split; [reflexivity|].
    split; [reflexivity|]. split; [discriminate|]. split; reflexivity.
  - do 4 eexists. split; [vm_compute; reflexivity|].
    split; [vm_compute; reflexivity|]. repeat split.
Qed.

(** X22: for every external identity and every candidate that carries that
    identity, on a store that satisfies its constraints, two calls of the
    reconciler in sequence both succeed, leave exactly one Conversation row
    with the identity, the second call adding no row and returning the row
    of the first with all its columns but the update time; and whatever the
    candidate, in a store whose ids are unique, a call that succeeds on an
    existing row leaves a non-null customer reference and a non-empty source
    as they were. *)
Theorem upsertConversation_twice (sid : string) (data : UnsavedConversation)
    (w : World) :
  conversations_wf w ->
  uc_sunshineConversationId data = Some sid ->
  (exists r1 w1 r2 w2,
      Reconciler.upsertConversation sid data w = (Ok r1, w1)
      /\ Reconciler.upsertConversation sid data w1 = (Ok r2, w2)
      /\ rows_with_conversation_key sid w1 = 1%nat
      /\ rows_with_conversation_key sid w2 = 1%nat
      /\ length (conversations w2) = length (conversations w1)
      /\ same_columns r1 r2
      /\ (forall x, c_customerId r1 = Some x -> c_customerId r2 = Some x)
      /\ (forall s, c_source r1 = Some s -> s <> "" -> c_source r2 = Some s)
      /\ conversations_wf w2)
  /\ (forall data' w0 w0' old r,
         NoDup (map c_id (conversations w0)) ->
         List.find (Store.conversation_has_key sid) (conversations w0) = Some old ->
         Reconciler.upsertConversation sid data' w0 = (Ok r, w0') ->
         (forall x, c_customerId old = Some x -> c_customerId r = Some x)
         /\ (forall s, c_source old = Some s -> s <> "" -> c_source r = Some s)).
Proof.
  intros Hwf Hsid. split.
  - destruct (upsertConversation_step sid data w Hwf Hsid)
      as (r1 & w1 & Hup1 & Hwf1 & Hf1 & Hset1 & _).
    destruct (upsertConversation_step sid data w1 Hwf1 Hsid)
      as (r2 & w2 & Hup2 & Hwf2 & Hf2 & _ & Hcase).
    rewrite Hf1 in Hcase. destruct Hcase as [[t ->] Hconv].
    exists r1, w1, (reconciled r1 data t), w2.
    assert (Hone : forall w' r, conversations_wf w' ->
                     List.find (Store.conversation_has_key sid) (conversations w')
                     = Some r ->
                     rows_with_conversation_key sid w' = 1%nat).
    { intros w' r Hw Hf.
      assert (Hex : existsb (Store.conversation_has_key sid) (conversations w') = true)
        by (rewrite existsb_find, Hf; reflexivity).
      apply filter_some in Hex. pose proof (wf_keys _ Hw sid) as Hle.
      unfold rows_with_conversation_key in *. lia. }
    pose proof (reconciled_settled sid data r1 t Hset1 Hsid) as Hsame.
    split; [exact Hup1|]. split; [exact Hup2|].
    split; [now apply (Hone w1 r1)|].
    split; [now apply (Hone w2 (reconciled r1 data t))|].
    split; [rewrite Hconv; apply length_replace|].
    split; [exact Hsame|].
    destruct Hsame as (_ & _ & Hc & Hs & _).
    split; [intros x Hx; now rewrite <- Hc|].
    split; [intros s Hx _; now rewrite <- Hs | exact Hwf2].
  - intros data' w0 w0' old r Hids Hf Hup. eapply fill_once_kept; eauto.
Qed.

Lemma upsertConversation_twice_witness :
  exists r1 w1 r2 w2,
    Reconciler.upsertConversation "ext-99" Demo.candidate Demo.empty_world
    = (Ok r1, w1)
    /\ Reconciler.upsertConversation "ext-99" Demo.candidate w1 = (Ok r2, w2)
    /\ rows_with_conversation_key "ext-99" w2 = 1%nat
    /\ same_columns r1 r2.
Proof.
  destruct (upsertConversation_twice "ext-99" Demo.candidate Demo.empty_world
              demo_empty_world_wf eq_refl)
    as ((r1 & w1 & r2 & w2 & H1 & H2 & _ & Hone & _ & Hsame & _) & _).
  exists r1, w1, r2, w2. repeat split; try assumption; apply Hsame.
Defined.

(** * Further properties of the facade *)

(** ** More on objects *)

Module JsLookup.

Lemma get_set_eq (o : JsObject) (k : string) (v : value) :
  Js.get (Js.set o k v) k = v.
Proof.
  induction o as [|[k0 v0] o IH]; cbn.
  - now rewrite String.eqb_refl.
  - destruct (String.eqb k0 k) eqn:E; cbn; rewrite E; [reflexivity | exact IH].
Qed.

Lemma get_set_ne (o : JsObject) (k k' : string) (v : value) :
  k <> k' -> Js.get (Js.set o k v) k' = Js.get o k'.
Proof.
  intros Hne. induction o as [|[k0 v0] o IH]; cbn.
  - destruct (String.eqb_spec k k'); [contradiction | reflexivity].
  - destruct (String.eqb_spec k0 k) as [->|Hk]; cbn.
    + destruct (String.eqb_spec k k'); [contradiction | reflexivity].
    + destruct (String.eqb k0 k'); [reflexivity | exact IH].
Qed.

Lemma get_pickBy_truthy (o : JsObject) (k : string) :
  truthy (Js.get o k) = true -> Js.get (Js.pickBy o truthy) k = Js.get o k.
Proof.
  unfold Js.pickBy. induction o as [|[k0 v0] o IH]; cbn; [reflexivity|].
  destruct (String.eqb k0 k) eqn:E.
  - intros ->. cbn. now rewrite E.
  - intros Ht. destruct (truthy v0); cbn; [rewrite E|]; now apply IH.
Qed.

Lemma In_has (o : JsObject) (k : string) (v : value) :
  In (k, v) o -> Js.has o k = true.
Proof.
  induction o as [|[k0 v0] o IH]; cbn; [tauto|].
  intros [[= -> ->]|Hin]; [now rewrite String.eqb_refl|].
  destruct (String.eqb k0 k); [reflexivity | now apply IH].
Qed.

Lemma In_set_other (o : JsObject) (k k' : string) (v v' : value) :
  k' <> k -> In (k, v) o -> In (k, v) (Js.set o k' v').
Proof.
  intros Hne. induction o as [|[k0 v0] o IH]; cbn; [tauto|].
  intros [[= -> ->]|Hin].
  - destruct (String.eqb_spec k k'); [congruence | now left].
  - destruct (String.eqb k0 k'); right; auto.
Qed.

Lemma In_spread_left (a b : JsObject) (k : string) (v : value) :
  Js.has b k = false -> In (k, v) a -> In (k, v) (Js.spread a b).
Proof.
  unfold Js.spread. revert a.
  induction b as [|[k0 v0] b IH]; intros a Hb Hin; cbn in *; [exact Hin|].
  destruct (String.eqb_spec k0 k) as [->|Hne]; [discriminate|].
  apply IH; [exact Hb|]. now apply In_set_other.
Qed.

Lemma has_pick (o : JsObject) (ks : list string) (k : string) :
  Js.has o k = false -> Js.has (Js.pick o ks) k = false.
Proof.
  intros Ho. unfold Js.pick. induction ks as [|k0 ks IH]; cbn; [reflexivity|].
  destruct (Js.has o k0) eqn:E0; cbn; [|exact IH].
  destruct (String.eqb_spec k0 k) as [->|_]; [congruence | exact IH].
Qed.

(** Keys that occur once. *)
Lemma NoDup_keys_set (o : JsObject) (k : string) (v : value) :
  NoDup (Js.keys o) -> NoDup (Js.keys (Js.set o k v)).
Proof.
  unfold Js.keys. induction o as [|[k0 v0] o IH]; cbn; intros Hnd.
  - apply NoDup_singleton.
  - apply NoDup_cons in Hnd as [Hnotin Hnd].
    destruct (String.eqb_spec k0 k) as [->|Hne]; cbn.
    + apply NoDup_cons. now split.
    + apply NoDup_cons. split; [|now apply IH].
      intros Hin. apply Hnotin.
      apply list_elem_of_In, in_map_iff in Hin as ([k1 v1] & Hk1 & Hin). cbn in Hk1. subst k1.
      apply list_elem_of_In, in_map_iff.
      assert (Hhas : Js.has (Js.set o k v) k0 = true) by (eapply In_has; eauto).
      rewrite JsFacts.has_set in Hhas.
      destruct (String.eqb_spec k k0) as [->|_]; [contradiction|]. cbn in Hhas.
      clear -Hhas. induction o as [|[k2 v2] o IH]; cbn in *; [discriminate|].
      destruct (String.eqb_spec k2 k0) as [->|_].
      * exists (k0, v2). split; [reflexivity | now left].
      * destruct (IH Hhas) as (x & Hx & Hin). exists x. split; [exact Hx | now right].
Qed.

Lemma NoDup_keys_spread (a b : JsObject) :
  NoDup (Js.keys a) -> NoDup (Js.keys (Js.spread a b)).
Proof.
  unfold Js.spread. revert a.
  induction b as [|[k v] b IH]; intros a Ha; cbn; [exact Ha|].
  apply IH. now apply NoDup_keys_set.
Qed.

Lemma NoDup_keys_pickBy (o : JsObject) (p : value -> bool) :
  NoDup (Js.keys o) -> NoDup (Js.keys (Js.pickBy o p)).
Proof.
  unfold Js.keys, Js.pickBy. induction o as [|[k v] o IH]; cbn; intros Hnd;
    [constructor|].
  apply NoDup_cons in Hnd as [Hnotin Hnd].
  destruct (p v); cbn; [|now apply IH].
  apply NoDup_cons. split; [|now apply IH].
  intros Hin. apply Hnotin.
  apply list_elem_of_In, in_map_iff in Hin as (x & Hx & Hin).
  apply List.filter_In in Hin as [Hin _].
  apply list_elem_of_In, in_map_iff. eauto.
Qed.

Lemma In_get (o : JsObject) (k : string) (v : value) :
  NoDup (Js.keys o) -> In (k, v) o -> Js.get o k = v.
Proof.
  unfold Js.keys. induction o as [|[k0 v0] o IH]; cbn; [tauto|].
  intros Hnd. apply NoDup_cons in Hnd as [Hnotin Hnd].
  intros [[= -> ->]|Hin]; [now rewrite String.eqb_refl|].
  destruct (String.eqb_spec k0 k) as [->|_]; [|now apply IH].
  exfalso. apply Hnotin. apply list_elem_of_In, in_map_iff.
  exists (k, v). split; [reflexivity | exact Hin].
Qed.

End JsLookup.

(** ** What the reads return *)

Section ReadResults.

Context `{Collaborators} (staff : Staff).

Lemma truthy_get_In (o : JsObject) (k : string) :
  truthy (Js.get o k) = true -> In (k, Js.get o k) (Js.pickBy o truthy).
Proof.
  unfold Js.pickBy. induction o as [|[k0 v0] o IH]; cbn; [discriminate|].
  destruct (String.eqb_spec k0 k) as [->|Hne].
  - intros ->. cbn. now left.
  - intros Ht. destruct (truthy v0); cbn; [right|]; now apply IH.
Qed.

Lemma conversation_where_In (w : World) (o : JsObject) (c : Conversation)
    (k : string) (v : value) :
  Store.conversation_where w o c = true -> In (k, v) o ->
  Store.conversation_constraint w k v c = true.
Proof.
  unfold Store.conversation_where. intros Hall Hin.
  rewrite forallb_forall in Hall. exact (Hall (k, v) Hin).
Qed.

(** The value the compiled clause holds under a filter key the caller
    gave. *)
Lemma spread_type (args : ConversationsArgs) (t : ConversationType) :
  ca_type args = Given t ->
  Js.get (Js.spread (getConversationRules staff)
            (Js.pick (filters_object args) ["type"; "id"; "customerId"])) "type"
  = VStr t.
Proof.
  destruct args as [l o ty [| |cu] [| |i]]; cbn; intros ->; cbn;
    rewrite ?JsLookup.get_set_ne by discriminate; apply JsLookup.get_set_eq.
Qed.

Lemma spread_id (args : ConversationsArgs) (n : Z) :
  ca_id args = Given n ->
  Js.get (Js.spread (getConversationRules staff)
            (Js.pick (filters_object args) ["type"; "id"; "customerId"])) "id"
  = VNum n.
Proof.
  destruct args as [l o [| |ty] [| |cu] i]; cbn; intros ->; cbn;
    rewrite ?JsLookup.get_set_ne by discriminate; apply JsLookup.get_set_eq.
Qed.

Lemma spread_customerId (args : ConversationsArgs) (n : Z) :
  ca_customerId args = Given n ->
  Js.get (Js.spread (getConversationRules staff)
            (Js.pick (filters_object args) ["type"; "id"; "customerId"])) "customerId"
  = VNum n.
Proof.
  destruct args as [l o [| |ty] cu [| |i]]; cbn; intros ->; cbn;
    rewrite ?JsLookup.get_set_ne by discriminate; apply JsLookup.get_set_eq.
Qed.

Lemma compiled_entry (args : ConversationsArgs) (k : string) (v : value) :
  Js.get (Js.spread (getConversationRules staff)
            (Js.pick (filters_object args) ["type"; "id"; "customerId"])) k = v ->
  truthy v = true ->
  In (k, v) (conversations_where staff args).
Proof.
  intros <- Ht. unfold conversations_where, clean. now apply truthy_get_In.
Qed.

Lemma truthy_num (n : Z) : n <> 0 -> truthy (VNum n) = true.
Proof. intros Hn. cbn. now destruct (Z.eqb_spec n 0). Qed.

Lemma truthy_str (s : string) : s <> "" -> truthy (VStr s) = true.
Proof. intros Hs. cbn. now destruct (String.eqb_spec s ""). Qed.

End ReadResults.

(** X1: every conversation [getConversations] returns is a row of the
    store on which the caller's filters hold: a non-empty [type], a non-zero
    [id] and a non-zero [customerId] given by the caller are the row's. *)
Theorem getConversations_filters_hold `{Collaborators} (staff : Staff)
    (args : ConversationsArgs) (w : World) (c : Conversation) :
  In c (getConversations staff args w) ->
  In c (conversations w)
  /\ (forall t, ca_type args = Given t -> t <> "" -> c_type c = t)
  /\ (forall n, ca_id args = Given n -> n <> 0 -> c_id c = n)
  /\ (forall n, ca_customerId args = Given n -> n <> 0 -> c_customerId c = Some n).
Proof.
  intros Hin. unfold getConversations in Hin.
  apply findMany_In in Hin as [Hrow Hwhere]. split; [exact Hrow|].
  split; [|split].
  - intros t Ht Hne.
    pose proof (compiled_entry staff args "type" (VStr t)
                  (spread_type staff args t Ht) (truthy_str t Hne)) as Hentry.
    pose proof (conversation_where_In _ _ _ _ _ Hwhere Hentry) as Hc.
    cbn in Hc. now apply String.eqb_eq in Hc.
  - intros n Hn Hne.
    pose proof (compiled_entry staff args "id" (VNum n)
                  (spread_id staff args n Hn) (truthy_num n Hne)) as Hentry.
    pose proof (conversation_where_In _ _ _ _ _ Hwhere Hentry) as Hc.
    cbn in Hc. now apply Z.eqb_eq in Hc.
  - intros n Hn Hne.
    pose proof (compiled_entry staff args "customerId" (VNum n)
                  (spread_customerId staff args n Hn) (truthy_num n Hne)) as Hentry.
    pose proof (conversation_where_In _ _ _ _ _ Hwhere Hentry) as Hc.
    cbn in Hc. now apply bool_decide_eq_true in Hc.
Qed.

Lemma getConversations_filters_hold_witness :
  c_type (Demo.conversation 7 (Some "ext-99") "CUSTOMER" 20) = "CUSTOMER".
Proof.
  assert (Hin : In (Demo.conversation 7 (Some "ext-99") "CUSTOMER" 20)
                  (getConversations Demo.admin
                     {| ca_limit := None; ca_offset := None;
                        ca_type := Given "CUSTOMER"; ca_customerId := Absent;
                        ca_id := Absent |} Demo.world))
    by (vm_compute; right; left; reflexivity).
  destruct (getConversations_filters_hold _ _ _ _ Hin) as (_ & Hty & _).
  apply Hty; [reflexivity | discriminate].
Defined.

(** X2: when the principal's rule predicate has only truthy values and
    shares no key with the filters the caller passes, every conversation
    [getConversations] returns lies in the principal's rule-engine scope. *)
Theorem getConversations_within_scope `{Collaborators} (staff : Staff)
    (args : ConversationsArgs) (w : World) (c : Conversation) :
  rules_truthy staff ->
  (forall k, Js.has (getConversationRules staff) k = true ->
             Js.has (filters_object args) k = false) ->
  In c (getConversations staff args w) ->
  in_scope staff w c = true.
Proof.
  intros Ht Hkeys Hin. unfold getConversations in Hin.
  apply findMany_In in Hin as [_ Hwhere].
  unfold in_scope, Store.conversation_where. apply forallb_forall.
  intros [k v] Hkv. cbn.
  apply (conversation_where_In _ _ _ _ _ Hwhere).
  unfold conversations_where, clean, Js.pickBy. apply List.filter_In. split.
  - apply JsLookup.In_spread_left; [|exact Hkv].
    apply JsLookup.has_pick, Hkeys. eapply JsLookup.In_has; eauto.
  - unfold rules_truthy in Ht. rewrite List.Forall_forall in Ht. exact (Ht _ Hkv).
Qed.

Lemma getConversations_within_scope_witness :
  in_scope Demo.agent Demo.world (Demo.conversation 5 None "PRIVATE" 30) = true.
Proof.
  apply (getConversations_within_scope Demo.agent
           {| ca_limit := None; ca_offset := None; ca_type := Given "PRIVATE";
              ca_customerId := Absent; ca_id := Absent |}).
  - repeat constructor.
  - intros k Hk.
    change (Js.has [("staffConversations",
                     VObj [("some", VObj [("staffId", VNum 2)])])] k = true) in Hk.
    cbn -[String.eqb] in Hk.
    destruct (String.eqb_spec "staffConversations" k) as [E|E];
      [subst k; reflexivity | discriminate Hk].
  - vm_compute. left. reflexivity.
Defined.

(** X3: a [type], [id] or [customerId] filter given by the caller takes the
    place of whatever the rule predicate holds under the same key: in the
    compiled where-clause the only constraint under that key is the
    caller's. *)
Theorem caller_filter_replaces_rule `{Collaborators} (staff : Staff)
    (args : ConversationsArgs) :
  NoDup (Js.keys (getConversationRules staff)) ->
  (forall t, ca_type args = Given t -> t <> "" ->
             In ("type", VStr t) (conversations_where staff args)
             /\ forall v, In ("type", v) (conversations_where staff args) -> v = VStr t)
  /\ (forall n, ca_id args = Given n -> n <> 0 ->
                In ("id", VNum n) (conversations_where staff args)
                /\ forall v, In ("id", v) (conversations_where staff args) -> v = VNum n)
  /\ (forall n, ca_customerId args = Given n -> n <> 0 ->
                In ("customerId", VNum n) (conversations_where staff args)
                /\ forall v, In ("customerId", v) (conversations_where staff args) ->
                             v = VNum n).
Proof.
  intros Hnd.
  assert (Hnd' : NoDup (Js.keys (conversations_where staff args))).
  { unfold conversations_where, clean.
    now apply JsLookup.NoDup_keys_pickBy, JsLookup.NoDup_keys_spread. }
  assert (Honly : forall k v, In (k, v) (conversations_where staff args) ->
                    forall v', In (k, v') (conversations_where staff args) -> v' = v).
  { intros k v Hin v' Hin'.
    rewrite <- (JsLookup.In_get _ _ _ Hnd' Hin), <- (JsLookup.In_get _ _ _ Hnd' Hin').
    reflexivity. }
  split; [|split].
  - intros t Ht Hne.
    pose proof (compiled_entry staff args "type" (VStr t)
                  (spread_type staff args t Ht) (truthy_str t Hne)) as Hentry.
    split; [exact Hentry | now apply Honly].
  - intros n Hn Hne.
    pose proof (compiled_entry staff args "id" (VNum n)
                  (spread_id staff args n Hn) (truthy_num n Hne)) as Hentry.
    split; [exact Hentry | now apply Honly].
  - intros n Hn Hne.
    pose proof (compiled_entry staff args "customerId" (VNum n)
                  (spread_customerId staff args n Hn) (truthy_num n Hne)) as Hentry.
    split; [exact Hentry | now apply Honly].
Qed.

Lemma caller_filter_replaces_rule_witness :
  In ("type", VStr "CUSTOMER")
    (@conversations_where Demo2.by_type Demo.agent
       {| ca_limit := None; ca_offset := None; ca_type := Given "CUSTOMER";
          ca_customerId := Absent; ca_id := Absent |})
  /\ map c_id (@getConversations Demo2.by_type Demo.agent
                 {| ca_limit := None; ca_offset := None; ca_type := Given "CUSTOMER";
                    ca_customerId := Absent; ca_id := Absent |} Demo.world)
     = [8; 7].
Proof.
  split; [|reflexivity].
  assert (Hnd : NoDup (Js.keys (@getConversationRules Demo2.by_type Demo.agent)))
    by (apply (bool_decide_unpack _); vm_compute; exact I).
  destruct (@caller_filter_replaces_rule Demo2.by_type Demo.agent
              {| ca_limit := None; ca_offset := None; ca_type := Given "CUSTOMER";
                 ca_customerId := Absent; ca_id := Absent |} Hnd) as (Hty & _).
  apply (Hty "CUSTOMER"); [reflexivity | discriminate].
Defined.

(** X4: every message [getMessages] returns is a row of the store whose
    conversation is a row of the store within the principal's rule-engine
    scope, whatever the rule predicate is; a non-zero [id] or
    [conversationId] given by the caller is the row's. *)
Theorem getMessages_within_scope `{Collaborators} (staff : Staff)
    (args : MessageArgs) (w : World) (m : Message) :
  In m (getMessages staff args w) ->
  In m (messages w)
  /\ (exists c, In c (conversations w)
                /\ c_id c = m_conversationId m
                /\ in_scope staff w c = true)
  /\ (forall n, ma_id args = Some n -> n <> 0 -> m_id m = n)
  /\ (forall n, ma_conversationId args = Some n -> n <> 0 -> m_conversationId m = n).
Proof.
  intros Hin. unfold getMessages in Hin.
  apply findMany_In in Hin as [Hrow Hwhere]. split; [exact Hrow|].
  unfold messages_where, clean in Hwhere. cbn in Hwhere.
  apply andb_true_iff in Hwhere as [Hconv Hrest].
  split; [|split].
  - apply existsb_exists in Hconv as (c & Hc & Hmatch).
    apply andb_true_iff in Hmatch as [Hid Hscope].
    exists c. split; [exact Hc|]. split; [now apply Z.eqb_eq | exact Hscope].
  - intros n Hn Hne. rewrite Hn in Hrest. cbn in Hrest.
    destruct (Z.eqb_spec n 0); [contradiction|]. cbn in Hrest.
    apply andb_true_iff in Hrest as [Hid _]. now apply Z.eqb_eq.
  - intros n Hn Hne. rewrite Hn in Hrest.
    destruct (truthy (prop (ma_id args))); cbn in Hrest;
      destruct (Z.eqb_spec n 0); try contradiction; cbn in Hrest.
    + apply andb_true_iff in Hrest as [_ Hrest].
      apply andb_true_iff in Hrest as [Hc _]. now apply Z.eqb_eq.
    + apply andb_true_iff in Hrest as [Hc _]. now apply Z.eqb_eq.
Qed.

Lemma getMessages_within_scope_witness :
  exists c, In c (conversations Demo.world)
            /\ c_id c = 5
            /\ in_scope Demo.agent Demo.world c = true.
Proof.
  assert (Hin : In (Demo.message 1 5 None 11)
                  (getMessages Demo.agent
                     {| ma_limit := None; ma_offset := None; ma_conversationId := None;
                        ma_id := None; ma_order := None |} Demo.world))
    by (vm_compute; left; reflexivity).
  destruct (getMessages_within_scope _ _ _ _ Hin) as (_ & Hc & _). exact Hc.
Defined.

Lemma length_firstn_le {A} (n : nat) (l : list A) : (length (firstn n l) <= n)%nat.
Proof.
  revert l. induction n as [|n IH]; intros [|a l]; cbn; try lia.
  specialize (IH l). lia.
Qed.

(** X5: a read returns at most as many rows as the normalized limit, hence
    never more than 100, and at most the given limit when that lies in
    [1, 100]. *)
Theorem reads_are_bounded `{Collaborators} (staff : Staff) (w : World)
    (args : ConversationsArgs) (margs : MessageArgs) :
  (length (getConversations staff args w) <= 100)%nat
  /\ (length (getMessages staff margs w) <= 100)%nat
  /\ (forall n, ca_limit args = Some n -> 1 <= n <= 100 ->
                (length (getConversations staff args w) <= Z.to_nat n)%nat)
  /\ (forall n, ma_limit margs = Some n -> 1 <= n <= 100 ->
                (length (getMessages staff margs w) <= Z.to_nat n)%nat)
  /\ (ca_limit args = None -> (length (getConversations staff args w) <= 25)%nat)
  /\ (ma_limit margs = None -> (length (getMessages staff margs w) <= 25)%nat).
Proof.
  assert (Hlen : forall A (rows : list A) skip limit wh ob,
             (length (Store.findMany rows skip limit wh ob) <= Z.to_nat limit)%nat)
    by (intros; apply length_firstn_le).
  unfold getConversations, getMessages. repeat split.
  - etransitivity; [apply Hlen|]. cbn. pose proof (clamp_range (or_default (ca_limit args) 25)). lia.
  - etransitivity; [apply Hlen|]. cbn. pose proof (clamp_range (or_default (ma_limit margs) 25)). lia.
  - intros n Hn Hr. etransitivity; [apply Hlen|]. cbn. rewrite Hn. cbn.
    destruct (Z.eqb_spec n 0); [lia|]. rewrite clamp_inside by lia. lia.
  - intros n Hn Hr. etransitivity; [apply Hlen|]. cbn. rewrite Hn. cbn.
    destruct (Z.eqb_spec n 0); [lia|]. rewrite clamp_inside by lia. lia.
  - intros Hn. etransitivity; [apply Hlen|]. cbn. rewrite Hn. cbn. lia.
  - intros Hn. etransitivity; [apply Hlen|]. cbn. rewrite Hn. cbn. lia.
Qed.

Lemma reads_are_bounded_witness :
  (length (getConversations Demo.admin
             {| ca_limit := Some 2%Z; ca_offset := None; ca_type := Absent;
                ca_customerId := Absent; ca_id := Absent |} Demo.world) <= 2)%nat.
Proof.
  destruct (reads_are_bounded Demo.admin Demo.world
              {| ca_limit := Some 2; ca_offset := None; ca_type := Absent;
                 ca_customerId := Absent; ca_id := Absent |}
              {| ma_limit := None; ma_offset := None; ma_conversationId := None;
                 ma_id := None; ma_order := None |}) as (_ & _ & Hlimit & _).
  apply (Hlimit 2); [reflexivity | lia].
Defined.

(** ** Lookups by id *)

(** A single-row lookup finds the one row that matches. *)
Lemma findMany_head_unique {A} (rows : list A) (wh : A -> bool)
    (orderBy : list ((A -> Z) * SortOrder)) (x : A) :
  In x rows -> wh x = true ->
  (forall y, In y rows -> wh y = true -> y = x) ->
  head (Store.findMany rows 0 1 wh orderBy) = Some x.
Proof.
  intros Hin Hx Honly. unfold Store.findMany.
  change (Z.to_nat 1) with 1%nat. change (Z.to_nat 0) with 0%nat. cbn [skipn].
  pose proof (merge_sort_Permutation (Store.ordered orderBy) (List.filter wh rows))
    as Hperm.
  destruct (merge_sort (Store.ordered orderBy) (List.filter wh rows)) as [|y s] eqn:Es.
  - apply Permutation_length in Hperm. cbn in Hperm.
    assert (Hx' : In x (List.filter wh rows)) by (apply List.filter_In; auto).
    destruct (List.filter wh rows); [destruct Hx' | discriminate].
  - cbn. f_equal.
    assert (Hy : y ∈ List.filter wh rows) by (rewrite <- Hperm; left).
    apply list_elem_of_In, List.filter_In in Hy as [Hy1 Hy2]. now apply Honly.
Qed.

(** X6: [getConversationById] finds a conversation by its id: for a
    principal whose rule predicate has only truthy values and does not
    constrain [id], a conversation of the store within scope, with a non-zero
    id that no other row has, is what the lookup of that id returns. *)
Theorem getConversationById_finds `{Collaborators} (staff : Staff) (w : World)
    (c : Conversation) :
  c_id c <> 0 ->
  rules_truthy staff ->
  Js.has (getConversationRules staff) "id" = false ->
  In c (conversations w) ->
  (forall c', In c' (conversations w) -> c_id c' = c_id c -> c' = c) ->
  in_scope staff w c = true ->
  getConversationById staff (c_id c) w = Some c.
Proof.
  intros Hne Ht Hk Hin Huniq Hscope.
  unfold getConversationById, getConversations.
  rewrite conversations_where_by_id by assumption.
  change (pg_offset _) with 0. change (pg_limit _) with 1.
  apply findMany_head_unique; [exact Hin | |].
  - rewrite conversation_where_app. unfold in_scope in Hscope. rewrite Hscope.
    cbn. now rewrite Z.eqb_refl.
  - intros c' Hc' Hw. rewrite conversation_where_app in Hw.
    apply andb_true_iff in Hw as [_ Hid]. cbn in Hid. rewrite andb_true_r in Hid.
    apply Huniq; [exact Hc' | now apply Z.eqb_eq].
Qed.

Lemma getConversationById_finds_witness :
  getConversationById Demo.agent 5 Demo.world
  = Some (Demo.conversation 5 None "PRIVATE" 30).
Proof.
  apply (getConversationById_finds Demo.agent Demo.world
           (Demo.conversation 5 None "PRIVATE" 30)).
  - discriminate.
  - repeat constructor.
  - reflexivity.
  - left. reflexivity.
  - intros c' [<-|[<-|[<-|[]]]] E; try discriminate E; reflexivity.
  - reflexivity.
Defined.

(** X7: [getMessageById] finds a message by its id: a message of the store
    with a non-zero id that no other row has, whose conversation is a row
    within the principal's scope, is what the lookup of that id returns; and
    whatever the lookup returns is a row of the store whose conversation is
    within scope. *)
Theorem getMessageById_finds `{Collaborators} (staff : Staff) (w : World)
    (m : Message) :
  (m_id m <> 0 ->
   In m (messages w) ->
   (forall m', In m' (messages w) -> m_id m' = m_id m -> m' = m) ->
   (exists c, In c (conversations w) /\ c_id c = m_conversationId m
              /\ in_scope staff w c = true) ->
   getMessageById staff (m_id m) w = Some m)
  /\ (forall id, getMessageById staff id w = Some m ->
                 In m (messages w)
                 /\ (id <> 0 -> m_id m = id)
                 /\ exists c, In c (conversations w) /\ c_id c = m_conversationId m
                              /\ in_scope staff w c = true).
Proof.
  split.
  - intros Hne Hin Huniq (c & Hc & Hid & Hscope).
    unfold getMessageById, getMessages.
    change (pg_offset _) with 0. change (pg_limit _) with 1.
    assert (Hwhere : forall m', Store.message_where w
                        (messages_where staff
                           {| ma_limit := Some 1; ma_offset := Some 0;
                              ma_conversationId := None; ma_id := Some (m_id m);
                              ma_order := None |}) m'
                      = (existsb (fun c => (c_id c =? m_conversationId m')
                                           && Store.conversation_where w
                                                (getConversationRules staff) c)
                           (conversations w)
                         && ((m_id m' =? m_id m) && true))%bool).
    { intros m'. unfold messages_where, clean. cbn.
      destruct (Z.eqb_spec (m_id m) 0); [contradiction | reflexivity]. }
    apply findMany_head_unique; [exact Hin | |].
    + rewrite Hwhere, Z.eqb_refl, andb_true_r. cbn.
      apply existsb_exists. exists c. split; [exact Hc|].
      rewrite Hid, Z.eqb_refl. exact Hscope.
    + intros m' Hm' Hw. rewrite Hwhere in Hw.
      apply andb_true_iff in Hw as [_ Hw]. apply andb_true_iff in Hw as [Hw _].
      apply Huniq; [exact Hm' | now apply Z.eqb_eq].
  - intros id Hget. unfold getMessageById in Hget.
    assert (Hin : In m (getMessages staff
                          {| ma_limit := Some 1; ma_offset := Some 0;
                             ma_conversationId := None; ma_id := Some id;
                             ma_order := None |} w)).
    { destruct (getMessages _ _ w) as [|x l]; [discriminate|].
      cbn in Hget. injection Hget as ->. now left. }
    unfold getMessages in Hin. apply findMany_In in Hin as [Hrow Hwhere].
    split; [exact Hrow|].
    unfold messages_where, clean in Hwhere. cbn in Hwhere.
    apply andb_true_iff in Hwhere as [Hconv Hrest]. split.
    + intros Hne. destruct (Z.eqb_spec id 0); [contradiction|]. cbn in Hrest.
      apply andb_true_iff in Hrest as [Hid _]. now apply Z.eqb_eq.
    + apply existsb_exists in Hconv as (c & Hc & Hmatch).
      apply andb_true_iff in Hmatch as [Hid Hscope].
      exists c. split; [exact Hc|]. split; [now apply Z.eqb_eq | exact Hscope].
Qed.

Lemma getMessageById_finds_witness :
  getMessageById Demo.agent 1 Demo.world = Some (Demo.message 1 5 None 11).
Proof.
  apply (getMessageById_finds Demo.agent Demo.world (Demo.message 1 5 None 11)).
  - discriminate.
  - left. reflexivity.
  - intros m' [<-|[<-|[]]] E; try discriminate E; reflexivity.
  - exists (Demo.conversation 5 None "PRIVATE" 30).
    split; [left; reflexivity|]. split; reflexivity.
Defined.

(** ** What sending leaves behind *)

Section SendingEffects.

Context `{Collaborators} (staff : Staff).

Ltac footprint added sent :=
  unfold send_footprint; cbn;
  split; [reflexivity|];
  split; [exists added; rewrite ?app_nil_r; split; [reflexivity|];
          split; [cbn; lia | intros; try reflexivity; try discriminate]|];
  split; [exists sent; rewrite ?app_nil_r; split; [reflexivity | cbn; lia]|].

Lemma sendMessage_footprint (id : Z) (content : value) (w w' : World)
    (r : Result Message) :
  sendMessage staff id content w = (r, w') -> send_footprint w w' r.
Proof.
  intros Hsend. unfold sendMessage, bind, read in Hsend.
  destruct (getConversationById staff id w) as [c|] eqn:Hc.
  2: { injection Hsend as <- <-. footprint (@nil Message) (@nil ProviderRequest).
       discriminate. }
  unfold joinConversation in Hsend. rewrite addToConversation_eq, Hc in Hsend.
  destruct (includes (allowedConversationTypes staff) (c_type c)).
  2: { injection Hsend as <- <-. footprint (@nil Message) (@nil ProviderRequest).
       discriminate. }
  assert (Hcreate : forall data w0 r0 w0',
             um_sunshineMessageId data = None ->
             Store.message_create data w0 = (r0, w0') ->
             send_footprint w0 w0' r0).
  { intros data w0 r0 w0' Hnone Hcr. unfold Store.message_create in Hcr.
    rewrite Hnone in Hcr. cbn in Hcr. injection Hcr as <- <-.
    footprint [Store.new_message w0 data] (@nil ProviderRequest).
    intros row [= <-]. apply in_or_app. right. now left. }
  assert (Hjoin : forall scs r0 w0',
             send_footprint (with_staffConversations w scs) w0' r0 ->
             send_footprint w w0' r0) by (intros scs r0 w0' Hf; exact Hf).
  destruct (String.eqb (c_type c) CUSTOMER), config as [cfg|];
    try (eapply Hjoin, Hcreate; [|exact Hsend]; reflexivity).
  unfold sunshine_postMessage, ret, throw in Hsend.
  destruct (c_sunshineConversationId c) as [sid|];
    [destruct (truthy (VStr sid))|].
  - cbn -[Store.message_upsert] in Hsend.
    destruct (postMessage _ _) as [[|pm others]|e].
    + injection Hsend as <- <-.
      footprint (@nil Message)
        [{| rq_appId := smoochAppId cfg; rq_conversationId := sid;
            rq_body := provider_body cfg content |}].
      discriminate.
    + rewrite message_upsert_noop in Hsend by reflexivity.
      cbn in Hsend.
      destruct (List.find _ (messages w)) as [existing|] eqn:Hf;
        injection Hsend as <- <-.
      * footprint (@nil Message)
          [{| rq_appId := smoochAppId cfg; rq_conversationId := sid;
              rq_body := provider_body cfg content |}].
        intros row [= <-]. now apply (List.find_some _ _ Hf).
      * match goal with
        | |- send_footprint _ (with_messages _ (_ ++ [?new]) _) _ =>
            footprint [new]
              [{| rq_appId := smoochAppId cfg; rq_conversationId := sid;
                  rq_body := provider_body cfg content |}]
        end.
        intros row [= <-]. apply in_or_app. right. now left.
    + injection Hsend as <- <-.
      footprint (@nil Message)
        [{| rq_appId := smoochAppId cfg; rq_conversationId := sid;
            rq_body := provider_body cfg content |}].
      discriminate.
  - cbn in Hsend. injection Hsend as <- <-.
    footprint (@nil Message) (@nil ProviderRequest). discriminate.
  - cbn in Hsend. injection Hsend as <- <-.
    footprint (@nil Message) (@nil ProviderRequest). discriminate.
Qed.

End SendingEffects.

(** What a lookup by id finds is a row of the store and, the id not being
    0, the row of that id. *)
Lemma getConversationById_row `{Collaborators} (staff : Staff) (id : Z) (w : World)
    (c : Conversation) :
  getConversationById staff id w = Some c ->
  In c (conversations w) /\ (id <> 0 -> c_id c = id).
Proof.
  unfold getConversationById. intros Hhead.
  assert (Hin : In c (getConversations staff
                        {| ca_limit := Some 1; ca_offset := Some 0; ca_type := Absent;
                           ca_customerId := Absent; ca_id := Given id |} w)).
  { destruct (getConversations _ _ w) as [|x l]; [discriminate|].
    injection Hhead as ->. now left. }
  unfold getConversations in Hin.
  apply findMany_In in Hin as [Hrow Hwhere]. split; [exact Hrow|].
  intros Hne.
  assert (Hid : ca_id {| ca_limit := Some 1; ca_offset := Some 0; ca_type := Absent;
                         ca_customerId := Absent; ca_id := Given id |} = Given id)
    by reflexivity.
  pose proof (compiled_entry staff _ "id" (VNum id)
                (spread_id staff _ id Hid) (truthy_num id Hne)) as Hentry.
  pose proof (conversation_where_In _ _ _ _ _ Hwhere Hentry) as Hc.
  cbn in Hc. now apply Z.eqb_eq in Hc.
Qed.




(** X8: whatever its outcome, a call of [sendMessage] (and so of
    [sendTextMessage]) leaves the Conversation table as it was, changes no
    existing Message row, appends at most one Message row and none when it
    throws, sends at most one request to the provider, and returns only a row
    that is in the Message table. *)
Theorem sendMessage_appends_at_most_one `{Collaborators} (staff : Staff) (id : Z)
    (w w' : World) (r : Result Message) :
  (forall content, sendMessage staff id content w = (r, w') -> send_footprint w w' r)
  /\ (forall text, sendTextMessage staff id text w = (r, w') -> send_footprint w w' r).
Proof.
  split.
  - intros content. apply sendMessage_footprint.
  - intros text. unfold sendTextMessage. apply sendMessage_footprint.
Qed.

Lemma sendMessage_appends_at_most_one_witness :
  exists row w',
    sendTextMessage Demo.admin 7 "hello" Demo.world = (Ok row, w')
    /\ In row (messages w').
Proof.
  destruct (sendTextMessage Demo.admin 7 "hello" Demo.world) as [r w'] eqn:Hsend.
  assert (Hr : exists row, r = Ok row)
    by (vm_compute in Hsend; injection Hsend as <- _; eexists; reflexivity).
  destruct Hr as [row ->]. exists row, w'. split; [reflexivity|].
  destruct (sendMessage_appends_at_most_one Demo.admin 7 Demo.world w' (Ok row))
    as [_ Htext].
  destruct (Htext "hello" Hsend) as (_ & _ & _ & Hin). now apply Hin.
Defined.

(** X9: [sendMessage] throws the access-denied error and leaves the whole
    world as it was (no join, no message, no request to the provider) when
    the sender's lookup of the conversation finds nothing; when the sender's
    rule predicate has only truthy values and does not constrain [id], and
    the id is not 0 and no conversation of the store with that id is in the
    sender's scope; and when the lookup finds a conversation of a type the
    sender may not join. *)
Theorem sendMessage_forbidden `{Collaborators} (staff : Staff) (id : Z)
    (content : value) (w : World) :
  (getConversationById staff id w = None ->
   sendMessage staff id content w = (Thrown Forbidden, w))
  /\ (id <> 0 -> rules_truthy staff ->
      Js.has (getConversationRules staff) "id" = false ->
      (forall c, In c (conversations w) -> c_id c = id -> in_scope staff w c = false) ->
      sendMessage staff id content w = (Thrown Forbidden, w))
  /\ (forall c, getConversationById staff id w = Some c ->
                includes (allowedConversationTypes staff) (c_type c) = false ->
                sendMessage staff id content w = (Thrown Forbidden, w)).
Proof.
  assert (Hnone : getConversationById staff id w = None ->
                  sendMessage staff id content w = (Thrown Forbidden, w)).
  { intros Hc. unfold sendMessage, bind, read. now rewrite Hc. }
  split; [exact Hnone|]. split.
  - intros Hid Ht Hk Hout. apply Hnone.
    now apply getConversationById_out_of_scope.
  - intros c Hc Hinc. unfold sendMessage, bind, read. rewrite Hc.
    unfold joinConversation. now rewrite addToConversation_eq, Hc, Hinc.
Qed.

Lemma sendMessage_forbidden_witness :
  sendMessage Demo.agent 7 (VStr "hello") Demo.world = (Thrown Forbidden, Demo.world).
Proof.
  destruct (sendMessage_forbidden Demo.agent 7 (VStr "hello") Demo.world)
    as (_ & Hscope & _).
  apply Hscope.
  - discriminate.
  - repeat constructor.
  - reflexivity.
  - intros c [<-|[<-|[<-|[]]]] E; try discriminate E; reflexivity.
Defined.

(** X10: nothing is rolled back when the provider step fails after the
    join: on a CUSTOMER conversation with an external identity, if the
    provider call throws, or answers with an empty list of messages (reading
    the first message's id then throws a TypeError), [sendMessage] throws,
    the Message table is as before, the request has gone out, and the
    sender's StaffConversation row is in the store. *)
Theorem sendMessage_failure_keeps_join `{Collaborators}
    (staff : Staff) (id : Z) (content : value) (w : World) (c : Conversation)
    (cfg : GoodChatConfig) (sid : string) :
  getConversationById staff id w = Some c ->
  includes (allowedConversationTypes staff) (c_type c) = true ->
  c_type c = CUSTOMER ->
  config = Some cfg ->
  c_sunshineConversationId c = Some sid ->
  sid <> "" ->
  let rq := {| rq_appId := smoochAppId cfg; rq_conversationId := sid;
               rq_body := provider_body cfg content |} in
  let key := {| sc_staffId := staff_id staff; sc_conversationId := id |} in
  (postMessage (outbox w) rq = Ok [] ->
   exists w', sendMessage staff id content w = (Thrown TypeError, w')
              /\ messages w' = messages w
              /\ outbox w' = outbox w ++ [rq]
              /\ (1 <= joined_rows key w')%nat)
  /\ (forall e, postMessage (outbox w) rq = Thrown e ->
       exists w', sendMessage staff id content w = (Thrown e, w')
                  /\ (1 <= joined_rows key w')%nat
                  /\ In key (staffConversations w')).
Proof.
  intros Hc Hinc Hty Hcfg Hsid Hne. cbv zeta.
  assert (Hin : forall w0,
             (1 <= joined_rows {| sc_staffId := staff_id staff;
                                  sc_conversationId := id |} w0)%nat ->
             In {| sc_staffId := staff_id staff; sc_conversationId := id |}
               (staffConversations w0)).
  { intros w0. unfold joined_rows.
    destruct (List.filter _ (staffConversations w0)) as [|x l] eqn:Ef; cbn; [lia|].
    intros _. assert (Hx : In x (List.filter
                                   (Store.staffConversation_has_key
                                      {| sc_staffId := staff_id staff;
                                         sc_conversationId := id |})
                                   (staffConversations w0)))
      by (rewrite Ef; now left).
    apply List.filter_In in Hx as [Hx Hk].
    apply staffConversation_key_eq in Hk. now subst x. }
  split.
  - intros Hpost. unfold sendMessage, bind, read. rewrite Hc.
    unfold joinConversation. rewrite addToConversation_eq, Hc, Hinc.
    rewrite Hty, Hcfg, Hsid, (truthy_nonempty _ Hne).
    unfold sunshine_postMessage. cbn. rewrite Hpost. cbn.
    eexists. split; [reflexivity|]. cbn. repeat split.
    apply (joined_rows_present _ w).
  - intros e Hpost. unfold sendMessage, bind, read. rewrite Hc.
    unfold joinConversation. rewrite addToConversation_eq, Hc, Hinc.
    rewrite Hty, Hcfg, Hsid, (truthy_nonempty _ Hne).
    unfold sunshine_postMessage. cbn. rewrite Hpost.
    eexists. split; [reflexivity|].
    assert (Hj : (1 <= joined_rows {| sc_staffId := staff_id staff;
                                      sc_conversationId := id |}
                         (with_outbox
                            (with_staffConversations w
                               (if existsb
                                     (Store.staffConversation_has_key
                                        {| sc_staffId := staff_id staff;
                                           sc_conversationId := id |})
                                     (staffConversations w)
                                then staffConversations w
                                else staffConversations w
                                     ++ [{| sc_staffId := staff_id staff;
                                            sc_conversationId := id |}]))
                            (outbox w
                             ++ [{| rq_appId := smoochAppId cfg;
                                    rq_conversationId := sid;
                                    rq_body := provider_body cfg content |}])))%nat)
      by apply (joined_rows_present _ w).
    split; [exact Hj | now apply Hin].
Qed.

Lemma sendMessage_failure_keeps_join_witness :
  exists w',
    sendMessage Demo.admin 8 (VStr "hello") Demo.world
    = (Thrown (ProviderFailure "ECONNRESET"), w')
    /\ In {| sc_staffId := 1; sc_conversationId := 8 |} (staffConversations w').
Proof.
  assert (Hc : getConversationById Demo.admin 8 Demo.world
               = Some (Demo.conversation 8 (Some "ext-down") "CUSTOMER" 20))
    by reflexivity.
  assert (Hne : "ext-down" <> "") by discriminate.
  destruct (sendMessage_failure_keeps_join Demo.admin 8 (VStr "hello") Demo.world
              (Demo.conversation 8 (Some "ext-down") "CUSTOMER" 20)
              {| appName := "GoodChat"; smoochAppId := "app-1" |} "ext-down"
              Hc eq_refl eq_refl eq_refl eq_refl Hne) as [_ Hthrow].
  destruct (Hthrow (ProviderFailure "ECONNRESET") eq_refl) as (w' & Hsend & _ & Hin).
  exists w'. split; [exact Hsend | exact Hin].
Defined.



(** ** What reconciling leaves behind *)

Section ReconcileEffects.

Implicit Types (w : World) (data : UnsavedConversation).

Lemma In_replace_first {A} (sel : A -> bool) (rows : list A) (old row : A) :
  List.find sel rows = Some old -> In row (Store.replace_first sel row rows).
Proof.
  induction rows as [|a rows IH]; cbn; [discriminate|].
  destruct (sel a); [now left | right; now apply IH].
Qed.

Lemma conversation_write_footprint (sel : Conversation -> bool)
    (old : Conversation) (patch : ConversationPatch) w w' r :
  List.find sel (conversations w) = Some old ->
  Store.conversation_write sel old patch w = (r, w') ->
  messages w' = messages w
  /\ staffConversations w' = staffConversations w
  /\ outbox w' = outbox w
  /\ messageSeq w' = messageSeq w
  /\ map c_id (conversations w') = map c_id (conversations w)
  /\ (forall row, r = Ok row -> In row (conversations w')).
Proof.
  intros Hf Hw. unfold Store.conversation_write in Hw.
  destruct (match cp_sunshineConversationId patch with
            | Some sid => _
            | None => false
            end); injection Hw as <- <-; cbn; repeat split; try discriminate.
  - eapply map_id_replace; eauto.
  - intros row [= <-]. eapply In_replace_first; eauto.
Qed.

Lemma conversation_update_footprint (id : Z) (patch : ConversationPatch) w w' r :
  Store.conversation_update id patch w = (r, w') ->
  messages w' = messages w
  /\ staffConversations w' = staffConversations w
  /\ outbox w' = outbox w
  /\ messageSeq w' = messageSeq w
  /\ map c_id (conversations w') = map c_id (conversations w)
  /\ (forall row, r = Ok row -> In row (conversations w')).
Proof.
  unfold Store.conversation_update.
  destruct (List.find _ (conversations w)) as [old|] eqn:Hf.
  - now apply conversation_write_footprint.
  - intros [= <- <-]. repeat split. discriminate.
Qed.

Lemma conversation_upsert_footprint (sid : string) data
    (patch : ConversationPatch) w w' r :
  Store.conversation_upsert sid data patch w = (r, w') ->
  reconcile_footprint w w' r.
Proof.
  unfold Store.conversation_upsert, reconcile_footprint.
  destruct (List.find _ (conversations w)) as [old|] eqn:Hf.
  - intros Hw.
    destruct (conversation_write_footprint _ _ _ _ _ _ Hf Hw)
      as (Hm & Hs & Ho & Hq & Hids & Hin).
    repeat split; auto. exists []. rewrite app_nil_r. split; [exact Hids | cbn; lia].
  - unfold Store.conversation_insert.
    destruct (Store.conversation_key_taken _ _ _); intros [= <- <-]; cbn.
    + repeat split; try discriminate. exists []. rewrite app_nil_r. split; [reflexivity | cbn; lia].
    + repeat split.
      * exists [conversationSeq w]. rewrite map_app. split; [reflexivity | cbn; lia].
      * intros row [= <-]. apply in_or_app. right. now left.
Qed.

Lemma upsertConversation_footprint (sid : string) data w w' r :
  Reconciler.upsertConversation sid data w = (r, w') ->
  reconcile_footprint w w' r.
Proof.
  unfold Reconciler.upsertConversation, bind.
  destruct (Store.conversation_upsert _ _ _ w) as [[conv|e] w1] eqn:Hup;
    [|intros [= <- <-]; now apply conversation_upsert_footprint in Hup].
  apply conversation_upsert_footprint in Hup.
  destruct Hup as (Hm & Hs & Ho & Hq & Hids & Hin).
  match goal with
  | |- (if ?b then _ else _) w1 = _ -> _ => destruct b
  end.
  - intros Hw. apply conversation_update_footprint in Hw.
    destruct Hw as (Hm' & Hs' & Ho' & Hq' & Hids' & Hin').
    unfold reconcile_footprint. repeat split; try congruence.
    + rewrite Hids'. exact Hids.
    + exact Hin'.
  - intros [= <- <-]. unfold reconcile_footprint. repeat split; auto.
Qed.

End ReconcileEffects.

(** X12: whatever its outcome, a call of [upsertConversation] writes the
    Conversation table only (messages, staff joins and provider requests are
    as before), removes and renumbers no conversation, adds at most one, and
    returns only a row that is in the table. *)
Theorem upsertConversation_writes_conversations_only (sid : string)
    (data : UnsavedConversation) (w w' : World) (r : Result Conversation) :
  Reconciler.upsertConversation sid data w = (r, w') ->
  reconcile_footprint w w' r.
Proof. apply upsertConversation_footprint. Qed.

Lemma upsertConversation_writes_conversations_only_witness :
  messages (snd (Reconciler.upsertConversation "ext-99" Demo.candidate Demo.world))
  = messages Demo.world.
Proof.
  destruct (Reconciler.upsertConversation "ext-99" Demo.candidate Demo.world)
    as [r w'] eqn:Hup.
  apply (upsertConversation_writes_conversations_only _ _ _ _ _ Hup).
Defined.

(** X13: on an external identity that no row carries, in a store whose
    conversation ids are below its sequence, [upsertConversation] appends one
    row and returns it: the row has the next id of the sequence, the identity
    it was keyed on (whatever the candidate's own identity field says), and
    the candidate's customer reference, source, type and metadata. *)
Theorem upsertConversation_creates (sid : string) (data : UnsavedConversation)
    (w : World) :
  List.find (Store.conversation_has_key sid) (conversations w) = None ->
  Forall (fun c => c_id c < conversationSeq w) (conversations w) ->
  exists row w',
    Reconciler.upsertConversation sid data w = (Ok row, w')
    /\ conversations w' = conversations w ++ [row]
    /\ conversationSeq w' = conversationSeq w + 1
    /\ c_id row = conversationSeq w
    /\ c_sunshineConversationId row = Some sid
    /\ c_customerId row = uc_customerId data
    /\ c_source row = uc_source data
    /\ c_type row = uc_type data
    /\ c_metadata row = uc_metadata data
    /\ c_createdAt row = now w.
Proof.
  intros Hf Hseq.
  destruct (upsertConversation_fresh sid data w Hf Hseq)
    as (t' & w' & Hup & Hconv & Hseq').
  exists (created sid data (conversationSeq w) (now w) t'), w'.
  repeat split; assumption.
Qed.

Lemma upsertConversation_creates_witness :
  exists row w',
    Reconciler.upsertConversation "ext-1" Demo.candidate_without_identity
      Demo.empty_world = (Ok row, w')
    /\ c_id row = 1
    /\ c_sunshineConversationId row = Some "ext-1".
Proof.
  destruct (upsertConversation_creates "ext-1" Demo.candidate_without_identity
              Demo.empty_world eq_refl (List.Forall_nil _))
    as (row & w' & Hup & _ & _ & Hid & Hsid & _).
  exists row, w'. repeat split; assumption.
Defined.

(** X14: in a store that satisfies its constraints, a reconciliation with a
    candidate that carries the identity it is keyed on succeeds, the store
    still satisfies its constraints afterwards, and looking the identity up
    then finds exactly the row the call returned. *)
Theorem upsertConversation_then_lookup (sid : string) (data : UnsavedConversation)
    (w : World) :
  conversations_wf w ->
  uc_sunshineConversationId data = Some sid ->
  exists row w',
    Reconciler.upsertConversation sid data w = (Ok row, w')
    /\ conversations_wf w'
    /\ List.find (Store.conversation_has_key sid) (conversations w') = Some row
    /\ rows_with_conversation_key sid w' = 1%nat
    /\ c_sunshineConversationId row = Some sid.
Proof.
  intros Hwf Hsid.
  destruct (upsertConversation_step sid data w Hwf Hsid)
    as (r & w' & Hup & Hwf' & Hf & (Hkey & _) & _).
  exists r, w'. split; [exact Hup|]. split; [exact Hwf'|]. split; [exact Hf|].
  split; [|exact Hkey].
  assert (Hex : existsb (Store.conversation_has_key sid) (conversations w') = true)
    by (rewrite existsb_find, Hf; reflexivity).
  apply filter_some in Hex. pose proof (wf_keys _ Hwf' sid) as Hle.
  unfold rows_with_conversation_key in *. lia.
Qed.

Lemma upsertConversation_then_lookup_witness :
  exists row w',
    Reconciler.upsertConversation "ext-99" Demo.candidate Demo.world = (Ok row, w')
    /\ List.find (Store.conversation_has_key "ext-99") (conversations w') = Some row.
Proof.
  destruct (upsertConversation_then_lookup "ext-99" Demo.candidate Demo.world
              demo_world_wf eq_refl) as (row & w' & Hup & _ & Hf & _).
  exists row, w'. split; assumption.
Defined.

(** ** The customer reads *)

Section CustomerReads.

Import Customers.

Context `{Customers.Collaborators} (staff : Staff).

Lemma In_existsb_Z (n : Z) (l : list Z) : existsb (Z.eqb n) l = true <-> In n l.
Proof.
  rewrite existsb_exists. split.
  - intros (x & Hx & E). apply Z.eqb_eq in E. now subst.
  - intros Hn. exists n. split; [exact Hn | apply Z.eqb_refl].
Qed.

Lemma In_existsb_string (s : string) (l : list string) :
  existsb (String.eqb s) l = true <-> In s l.
Proof.
  rewrite existsb_exists. split.
  - intros (x & Hx & E). apply String.eqb_eq in E. now subst.
  - intros Hs. exists s. split; [exact Hs | apply String.eqb_refl].
Qed.

Lemma getCustomers_In (args : CustomersArgs) (customers : list Customer)
    (c : Customer) :
  In c (getCustomers staff args customers) ->
  canViewCustomers staff = true
  /\ In c customers
  /\ (forall ids, cua_id args = Some ids -> In (cu_id c) (flatten1 ids))
  /\ (forall eids, cua_externalId args = Some eids ->
                   In (cu_externalId c) (flatten1 eids)).
Proof.
  unfold getCustomers. destruct (canViewCustomers staff); cbn; [|tauto].
  unfold customer_findMany. intros Hin.
  apply In_firstn, In_skipn, List.filter_In in Hin as [Hrow Hwh].
  split; [reflexivity|]. split; [exact Hrow|].
  unfold customer_where in Hwh. cbn in Hwh.
  apply andb_true_iff in Hwh as [Hid Heid]. split.
  - intros ids Hids. rewrite Hids in Hid. cbn in Hid. now apply In_existsb_Z.
  - intros eids Heids. rewrite Heids in Heid. cbn in Heid. now apply In_existsb_string.
Qed.

End CustomerReads.

(** X15: a staff member who may not view customers gets the empty list
    from [getCustomers], whatever the arguments and the table, and null from
    [getCustomerById]. *)
Theorem getCustomers_hidden `{Customers.Collaborators} (staff : Staff) :
  Customers.canViewCustomers staff = false ->
  (forall args customers, Customers.getCustomers staff args customers = [])
  /\ (forall id customers, Customers.getCustomerById staff id customers = None).
Proof.
  intros Hno. split.
  - intros args customers. unfold Customers.getCustomers. now rewrite Hno.
  - intros id customers.
    unfold Customers.getCustomerById, Customers.getCustomers. now rewrite Hno.
Qed.

Lemma getCustomers_hidden_witness :
  Customers.getCustomerById Demo.agent 4 Demo2.customers = None.
Proof.
  apply (getCustomers_hidden Demo.agent); reflexivity.
Defined.

(** X16: every customer [getCustomers] returns is a row of the table, seen
    by a staff member who may view customers, whose id is the given id or
    among the given ids and whose external id is the given one or among the
    given ones; an empty list of ids returns nothing; and the id filter is
    never dropped: what [getCustomerById] returns has the id asked for, 0
    included. *)
Theorem getCustomers_filters_hold `{Customers.Collaborators} (staff : Staff)
    (customers : list Customers.Customer) :
  (forall args c,
      In c (Customers.getCustomers staff args customers) ->
      Customers.canViewCustomers staff = true
      /\ In c customers
      /\ (forall ids, Customers.cua_id args = Some ids ->
                      In (Customers.cu_id c) (Customers.flatten1 ids))
      /\ (forall eids, Customers.cua_externalId args = Some eids ->
                       In (Customers.cu_externalId c) (Customers.flatten1 eids)))
  /\ (forall args, Customers.cua_id args = Some (Customers.Many []) ->
                   Customers.getCustomers staff args customers = [])
  /\ (forall id c, Customers.getCustomerById staff id customers = Some c ->
                   In c customers /\ Customers.cu_id c = id).
Proof.
  split; [|split].
  - intros args c. apply getCustomers_In.
  - intros args Hempty.
    destruct (Customers.getCustomers staff args customers) as [|c l] eqn:E;
      [reflexivity|].
    assert (Hin : In c (Customers.getCustomers staff args customers))
      by (rewrite E; now left).
    apply getCustomers_In in Hin as (_ & _ & Hid & _).
    destruct (Hid _ Hempty).
  - intros id c Hget. unfold Customers.getCustomerById in Hget.
    assert (Hin : In c (Customers.getCustomers staff
                          {| Customers.cua_limit := Some 1;
                             Customers.cua_offset := Some 0;
                             Customers.cua_id := Some (Customers.One id);
                             Customers.cua_externalId := None |} customers)).
    { destruct (Customers.getCustomers _ _ customers) as [|x l]; [discriminate|].
      cbn in Hget. injection Hget as ->. now left. }
    apply getCustomers_In in Hin as (_ & Hrow & Hid & _).
    split; [exact Hrow|].
    destruct (Hid _ eq_refl) as [E|[]]. now symmetry.
Qed.

Lemma getCustomers_filters_hold_witness :
  Customers.cu_id {| Customers.cu_id := 0; Customers.cu_externalId := "a" |} = 0
  /\ Customers.getCustomerById Demo.admin 0 Demo2.customers
     = Some {| Customers.cu_id := 0; Customers.cu_externalId := "a" |}.
Proof.
  assert (Hget : Customers.getCustomerById Demo.admin 0 Demo2.customers
                 = Some {| Customers.cu_id := 0; Customers.cu_externalId := "a" |})
    by reflexivity.
  split; [|exact Hget].
  destruct (getCustomers_filters_hold Demo.admin Demo2.customers) as (_ & _ & Hby).
  apply (Hby 0 _ Hget).
Defined.

(** X17: [getCustomerById] finds a customer by its id: for a staff member
    who may view customers, with the pagination helper turning limit 1 and
    offset 0 into themselves, a customer of the table whose id no other row
    has is what the lookup of that id returns. *)
Theorem getCustomerById_finds `{Customers.Collaborators} (staff : Staff)
    (customers : list Customers.Customer) (c : Customers.Customer) :
  Customers.canViewCustomers staff = true ->
  Customers.normalizePages {| a_limit := Some 1; a_offset := Some 0 |}
  = {| pg_limit := 1; pg_offset := 0 |} ->
  In c customers ->
  (forall c', In c' customers -> Customers.cu_id c' = Customers.cu_id c -> c' = c) ->
  Customers.getCustomerById staff (Customers.cu_id c) customers = Some c.
Proof.
  intros Hcan Hpages Hin Huniq.
  unfold Customers.getCustomerById, Customers.getCustomers.
  rewrite Hcan. cbn [negb]. cbn [Customers.cua_limit Customers.cua_offset].
  rewrite Hpages. unfold Customers.customer_findMany. cbn [pg_limit pg_offset].
  change (Z.to_nat 1) with 1%nat. change (Z.to_nat 0) with 0%nat.
  rewrite drop_0.
  match goal with
  | |- head (firstn 1 (List.filter ?wh customers)) = _ =>
      assert (Hc : In c (List.filter wh customers));
      [|assert (Hall : forall x, In x (List.filter wh customers) -> x = c)]
  end.
  - apply List.filter_In. split; [exact Hin|].
    unfold Customers.customer_where. cbn. now rewrite Z.eqb_refl.
  - intros x Hx. apply List.filter_In in Hx as [Hx Hwh].
    unfold Customers.customer_where in Hwh. cbn in Hwh.
    rewrite orb_false_r, andb_true_r in Hwh. apply Z.eqb_eq in Hwh.
    apply Huniq; auto.
  - destruct (List.filter _ customers) as [|x l]; [destruct Hc|].
    cbn. f_equal. apply Hall. now left.
Qed.

Lemma getCustomerById_finds_witness :
  Customers.getCustomerById Demo.admin 4 Demo2.customers
  = Some {| Customers.cu_id := 4; Customers.cu_externalId := "b" |}.
Proof.
  apply (getCustomerById_finds Demo.admin Demo2.customers
           {| Customers.cu_id := 4; Customers.cu_externalId := "b" |}).
  - reflexivity.
  - reflexivity.
  - right. left. reflexivity.
  - intros c' [<-|[<-|[<-|[]]]] E; try discriminate E; reflexivity.
Defined.

(** ** Loading the configuration *)

(** X18: [loadConfig] succeeds exactly when the five strict variables can
    be read and the authentication part loads, which it does when NO_AUTH is
    set, the auth url not being looked at, and otherwise only when the auth
    url can be read, its failure being the failure of the authentication
    part; the first read that throws, in the order host, app id, key id, key
    secret, authentication, redis url, is what [loadConfig] throws, whatever
    the reads after it would do; and a [reload] that throws leaves the
    configuration as it was, while one that loads replaces it. *)
Theorem loadConfig_requirements `{Config.Env} :
  (forall cfg,
      Config.loadConfig = Config.Got cfg <->
      exists host appId keyId secret a redis,
        Config.read_strict "GOODCHAT_HOST" = Config.Got host
        /\ Config.read_strict "SMOOCH_APP_ID" = Config.Got appId
        /\ Config.read_strict "SMOOCH_API_KEY_ID" = Config.Got keyId
        /\ Config.read_strict "SMOOCH_API_KEY_SECRET" = Config.Got secret
        /\ Config.authConfig = Config.Got a
        /\ Config.read_strict "REDIS_URL" = Config.Got redis
        /\ cfg = {| Config.appName := Config.read "GOODCHAT_APP_NAME" "GoodChat";
                    Config.goodchatHost := host; Config.smoochAppId := appId;
                    Config.smoochApiKeyId := keyId;
                    Config.smoochApiKeySecret := secret; Config.auth := a;
                    Config.redis_url := redis |})
  /\ (Config.read_bool "NO_AUTH" = true -> Config.authConfig = Config.Got Config.AuthNone)
  /\ (Config.read_bool "NO_AUTH" = false ->
      (forall a, Config.authConfig = Config.Got a <->
                 exists url, Config.read_string_strict "GOODCHAT_AUTH_URL" = Config.Got url
                             /\ a = Config.AuthWebhook url)
      /\ (forall e, Config.authConfig = Config.Raised e <->
                    Config.read_string_strict "GOODCHAT_AUTH_URL" = Config.Raised e))
  /\ (forall e, Config.read_strict "GOODCHAT_HOST" = Config.Raised e ->
                Config.loadConfig = Config.Raised e)
  /\ (forall host e, Config.read_strict "GOODCHAT_HOST" = Config.Got host ->
                     Config.read_strict "SMOOCH_APP_ID" = Config.Raised e ->
                     Config.loadConfig = Config.Raised e)
  /\ (forall host appId e,
         Config.read_strict "GOODCHAT_HOST" = Config.Got host ->
         Config.read_strict "SMOOCH_APP_ID" = Config.Got appId ->
         Config.read_strict "SMOOCH_API_KEY_ID" = Config.Raised e ->
         Config.loadConfig = Config.Raised e)
  /\ (forall host appId keyId e,
         Config.read_strict "GOODCHAT_HOST" = Config.Got host ->
         Config.read_strict "SMOOCH_APP_ID" = Config.Got appId ->
         Config.read_strict "SMOOCH_API_KEY_ID" = Config.Got keyId ->
         Config.read_strict "SMOOCH_API_KEY_SECRET" = Config.Raised e ->
         Config.loadConfig = Config.Raised e)
  /\ (forall host appId keyId secret e,
         Config.read_strict "GOODCHAT_HOST" = Config.Got host ->
         Config.read_strict "SMOOCH_APP_ID" = Config.Got appId ->
         Config.read_strict "SMOOCH_API_KEY_ID" = Config.Got keyId ->
         Config.read_strict "SMOOCH_API_KEY_SECRET" = Config.Got secret ->
         Config.authConfig = Config.Raised e ->
         Config.loadConfig = Config.Raised e)
  /\ (forall host appId keyId secret a e,
         Config.read_strict "GOODCHAT_HOST" = Config.Got host ->
         Config.read_strict "SMOOCH_APP_ID" = Config.Got appId ->
         Config.read_strict "SMOOCH_API_KEY_ID" = Config.Got keyId ->
         Config.read_strict "SMOOCH_API_KEY_SECRET" = Config.Got secret ->
         Config.authConfig = Config.Got a ->
         Config.read_strict "REDIS_URL" = Config.Raised e ->
         Config.loadConfig = Config.Raised e)
  /\ (forall config e, Config.loadConfig = Config.Raised e ->
                       Config.reload config = (Config.Raised e, config))
  /\ (forall config loaded, Config.loadConfig = Config.Got loaded ->
                            Config.reload config = (Config.Got tt, loaded)).
Proof.
  split; [|split; [|split; [|split; [|split; [|split; [|split; [|split;
    [|split; [|split]]]]]]]]].
  - intros cfg. unfold Config.loadConfig, Config.and_then. split.
    + destruct (Config.read_strict "GOODCHAT_HOST") as [host|]; [|discriminate].
      destruct (Config.read_strict "SMOOCH_APP_ID") as [appId|]; [|discriminate].
      destruct (Config.read_strict "SMOOCH_API_KEY_ID") as [keyId|]; [|discriminate].
      destruct (Config.read_strict "SMOOCH_API_KEY_SECRET") as [secret|];
        [|discriminate].
      destruct Config.authConfig as [a|]; [|discriminate].
      destruct (Config.read_strict "REDIS_URL") as [redis|]; [|discriminate].
      intros [= <-]. exists host, appId, keyId, secret, a, redis. repeat split.
    + intros (host & appId & keyId & secret & a & redis
              & -> & -> & -> & -> & -> & -> & ->). reflexivity.
  - intros Hno. unfold Config.authConfig. now rewrite Hno.
  - intros Hauth. unfold Config.authConfig, Config.and_then. rewrite Hauth. split.
    + intros a. split.
      * destruct (Config.read_string_strict "GOODCHAT_AUTH_URL") as [url|];
          [|discriminate].
        intros [= <-]. now exists url.
      * intros (url & -> & ->). reflexivity.
    + intros e. split.
      * destruct (Config.read_string_strict "GOODCHAT_AUTH_URL") as [url|];
          [discriminate|]. now intros [= <-].
      * now intros ->.
  - intros e He. unfold Config.loadConfig, Config.and_then. now rewrite He.
  - intros host e Hh He. unfold Config.loadConfig, Config.and_then.
    now rewrite Hh, He.
  - intros host appId e Hh Ha He. unfold Config.loadConfig, Config.and_then.
    now rewrite Hh, Ha, He.
  - intros host appId keyId e Hh Ha Hk He. unfold Config.loadConfig, Config.and_then.
    now rewrite Hh, Ha, Hk, He.
  - intros host appId keyId secret e Hh Ha Hk Hs He.
    unfold Config.loadConfig, Config.and_then. now rewrite Hh, Ha, Hk, Hs, He.
  - intros host appId keyId secret a e Hh Ha Hk Hs Hauth He.
    unfold Config.loadConfig, Config.and_then. now rewrite Hh, Ha, Hk, Hs, Hauth, He.
  - intros config e He. unfold Config.reload. now rewrite He.
  - intros config loaded Hl. unfold Config.reload. now rewrite Hl.
Qed.

Lemma loadConfig_requirements_witness :
  Config.read_string_strict "GOODCHAT_AUTH_URL" = Config.Raised "GOODCHAT_AUTH_URL"
  /\ exists cfg, Config.loadConfig = Config.Got cfg
                 /\ Config.auth cfg = Config.AuthNone.
Proof.
  split; [reflexivity|].
  destruct (@loadConfig_requirements Demo2.env_no_auth) as (Hiff & Hnone & _).
  eexists. split.
  - apply Hiff. do 6 eexists.
    split; [reflexivity|]. split; [reflexivity|]. split; [reflexivity|].
    split; [reflexivity|]. split; [apply Hnone; reflexivity|].
    split; reflexivity.
  - reflexivity.
Defined.

(** ** The facade of [index.ts] *)



(** ** Pagination windows *)

Lemma firstn_firstn_le {A} (n m : nat) (rows : list A) :
  (n <= m)%nat -> firstn n (firstn m rows) = firstn n rows.
Proof. intros Hle. rewrite List.firstn_firstn. f_equal. lia. Qed.

Lemma firstn_skipn_firstn {A} (l o : nat) (rows : list A) :
  firstn l (skipn o rows) = firstn l (skipn o (firstn (o + l) rows)).
Proof.
  revert rows. induction o as [|o IH]; intros rows.
  - change (0 + l)%nat with l. rewrite drop_0, (drop_0 (firstn l rows)).
    symmetry. apply firstn_firstn_le. lia.
  - destruct rows as [|a rows]; [reflexivity|].
    change (S o + l)%nat with (S (o + l)). apply IH.
Qed.

(** X20: the window of a read never reaches past the 200th matching row:
    both reads return the same rows as if only the first 200 rows of the
    ordered matching rows existed; and a negative limit returns no row at
    all. *)
Theorem reads_stop_at_200 `{Collaborators} (staff : Staff) (w : World)
    (args : ConversationsArgs) (margs : MessageArgs) :
  (let p := normalizePages {| a_limit := ca_limit args; a_offset := ca_offset args |} in
   let matching :=
     merge_sort (Store.ordered [(c_updatedAt, desc); (c_id, desc)])
       (List.filter (Store.conversation_where w (conversations_where staff args))
          (conversations w)) in
   getConversations staff args w = page p (firstn 200 matching))
  /\ (let p := normalizePages {| a_limit := ma_limit margs; a_offset := ma_offset margs |} in
      let matching :=
        merge_sort (Store.ordered [(m_createdAt, default desc (ma_order margs))])
          (List.filter (Store.message_where w (messages_where staff margs))
             (messages w)) in
      getMessages staff margs w = page p (firstn 200 matching))
  /\ (forall n, ca_limit args = Some n -> n < 0 -> getConversations staff args w = [])
  /\ (forall n, ma_limit margs = Some n -> n < 0 -> getMessages staff margs w = []).
Proof.
  assert (Hwin : forall A (p : Pagination) (rows : list A),
             0 <= pg_limit p <= 100 -> 0 <= pg_offset p <= 100 ->
             page p rows = page p (firstn 200 rows)).
  { intros A p rows Hl Ho. unfold page.
    rewrite (firstn_skipn_firstn _ _ rows).
    rewrite (firstn_skipn_firstn _ _ (firstn 200 rows)).
    rewrite firstn_firstn_le by lia. reflexivity. }
  split; [|split; [|split]].
  - cbv zeta. unfold getConversations, Store.findMany.
    apply (Hwin _ (normalizePages _)); apply clamp_range.
  - cbv zeta. unfold getMessages, Store.findMany.
    apply (Hwin _ (normalizePages _)); apply clamp_range.
  - intros n Hn Hneg. unfold getConversations, Store.findMany. cbn. rewrite Hn. cbn.
    destruct (Z.eqb_spec n 0); [lia|]. rewrite clamp_below by lia. reflexivity.
  - intros n Hn Hneg. unfold getMessages, Store.findMany. cbn. rewrite Hn. cbn.
    destruct (Z.eqb_spec n 0); [lia|]. rewrite clamp_below by lia. reflexivity.
Qed.

Lemma reads_stop_at_200_witness :
  getConversations Demo.admin
    {| ca_limit := Some (-3); ca_offset := None; ca_type := Absent;
       ca_customerId := Absent; ca_id := Absent |} Demo.world = [].
Proof.
  destruct (reads_stop_at_200 Demo.admin Demo.world
              {| ca_limit := Some (-3); ca_offset := None; ca_type := Absent;
                 ca_customerId := Absent; ca_id := Absent |}
              {| ma_limit := None; ma_offset := None; ma_conversationId := None;
                 ma_id := None; ma_order := None |}) as (_ & _ & Hneg & _).
  apply (Hneg (-3)); [reflexivity | lia].
Defined.
